(** * BIAnalysis: body composition from a bioimpedance sweep

    A shallow embedding of [src/BIAnalsysis.py] (class [BIAnalysis]) and of
    the entry point [main.py], with the properties of the written
    specification stated over it.

    Numbers.  Python's [float] and NumPy's [float64] are IEEE binary64.  The
    embedding idealises them: a finite value is a real number (no rounding,
    no overflow, a single zero which division reads as [+0]), and the three
    special values [inf], [-inf] and [nan] are kept, because the program
    reaches them (square root of a negative number, division by zero under
    NumPy).  The specification itself fixes its formulas "modulo
    floating-point rounding".  The range of binary64 is thus outside the
    embedding: where Python raises [OverflowError] (a square or an [int]
    beyond about [1.8e308]) or rounds a tiny value to zero, the embedding
    computes the exact real.  Statements about failures are therefore made
    only where they do not depend on the range.

    Texts.  A text is a sequence of characters with code points below 256.

    Failure.  A Python call either returns or raises; this is the [result]
    monad below. *)

From Stdlib Require Import Reals Lra Lia ZArith Bool Ascii String List.
Import ListNotations.

Local Open Scope R_scope.

(** ** Exceptions and the result monad *)

(** The first four are the built-in exceptions the program can raise (the
    [ValueError] of [float()] and [int()] carries the rejected text, as its
    message does).  The last five are the failure kinds the specification
    names; no code path constructs them. *)
Inductive exn : Type :=
| IndexError
| ValueError (text : string)
| ZeroDivisionError
| TypeError
| ParseError (field : string) (line : nat)
| TruncatedInputError
| ConvergenceError
| DomainError
| DivisionError.

Inductive result (A : Type) : Type :=
| Ok (a : A)
| Raise (e : exn).

Arguments Ok {A} a.
Arguments Raise {A} e.

Definition bind {A B : Type} (m : result A) (k : A -> result B) : result B :=
  match m with
  | Ok a => k a
  | Raise e => Raise e
  end.

Notation "x <- m ;; k" := (bind m (fun x => k))
  (at level 61, m at next level, right associativity).
Notation "' pat <- m ;; k" := (bind m (fun x => match x with pat => k end))
  (at level 61, pat pattern, m at next level, right associativity).

(** [l[i]] for a non-negative index. *)
Definition getitem {A : Type} (l : list A) (i : nat) : result A :=
  match nth_error l i with
  | Some a => Ok a
  | None => Raise IndexError
  end.

(** ** The number model *)

Inductive float64 : Type :=
| Fin (x : R)
| PInf
| NInf
| NaN.

Definition is_finite (v : float64) : Prop :=
  match v with Fin _ => True | _ => False end.

Definition fneg (v : float64) : float64 :=
  match v with
  | Fin x => Fin (- x)
  | PInf => NInf
  | NInf => PInf
  | NaN => NaN
  end.

Definition fadd (u v : float64) : float64 :=
  match u, v with
  | NaN, _ | _, NaN => NaN
  | Fin x, Fin y => Fin (x + y)
  | PInf, NInf | NInf, PInf => NaN
  | PInf, _ | _, PInf => PInf
  | NInf, _ | _, NInf => NInf
  end.

Definition fsub (u v : float64) : float64 := fadd u (fneg v).

(** An infinity of the sign of [x], or [nan] when [x] is zero. *)
Definition inf_of_sign (x : R) : float64 :=
  if Req_dec_T x 0 then NaN
  else if Rlt_dec 0 x then PInf else NInf.

Definition fmul (u v : float64) : float64 :=
  match u, v with
  | NaN, _ | _, NaN => NaN
  | Fin x, Fin y => Fin (x * y)
  | Fin x, PInf | PInf, Fin x => inf_of_sign x
  | Fin x, NInf | NInf, Fin x => inf_of_sign (- x)
  | PInf, PInf | NInf, NInf => PInf
  | PInf, NInf | NInf, PInf => NInf
  end.

(** Division as NumPy does it on [float64]: a zero divisor gives an infinity
    or [nan] (and a warning), never an exception. *)
Definition np_div (u v : float64) : float64 :=
  match u, v with
  | NaN, _ | _, NaN => NaN
  | Fin x, Fin y => if Req_dec_T y 0 then inf_of_sign x else Fin (x / y)
  | Fin _, _ => Fin 0
  | PInf, Fin y => if Rlt_dec y 0 then NInf else PInf
  | NInf, Fin y => if Rlt_dec y 0 then PInf else NInf
  | _, _ => NaN
  end.

(** Division of two Python floats: a zero divisor raises. *)
Definition py_div (u v : float64) : result float64 :=
  match v with
  | Fin y => if Req_dec_T y 0 then Raise ZeroDivisionError else Ok (np_div u v)
  | _ => Ok (np_div u v)
  end.

(** [x ** 2]. *)
Definition fsquare (v : float64) : float64 := fmul v v.

(** [np.sqrt]: [nan] below zero. *)
Definition np_sqrt (v : float64) : float64 :=
  match v with
  | Fin x => if Rlt_dec x 0 then NaN else Fin (sqrt x)
  | PInf => PInf
  | _ => NaN
  end.

(** [np.power(v, y)] for a finite exponent [y] that is positive and not an
    integer (the program's only exponent is [2/3]). *)
Definition np_power (v : float64) (y : R) : float64 :=
  match v with
  | Fin x => if Rlt_dec x 0 then NaN
             else if Req_dec_T x 0 then Fin 0 else Fin (Rpower x y)
  | PInf | NInf => PInf
  | NaN => NaN
  end.

(** An [int] used where a float is expected. *)
Definition of_int (z : Z) : float64 := Fin (IZR z).

(** [np.mean]: the sum over the count; [nan] on an empty sequence. *)
Definition np_sum (l : list float64) : float64 := fold_left fadd l (Fin 0).

Definition np_mean (l : list float64) : float64 :=
  match l with
  | [] => NaN
  | _ => np_div (np_sum l) (Fin (INR (length l)))
  end.

(** ** Strings: [str.split], [float()] and [int()] *)

(** [s.split(sep)] for a one-character separator: never empty, and empty
    fields are kept. *)
Fixpoint split (sep : ascii) (s : string) : list string :=
  match s with
  | EmptyString => [EmptyString]
  | String c s' =>
      if Ascii.eqb c sep then EmptyString :: split sep s'
      else match split sep s' with
           | w :: ws => String c w :: ws
           | [] => [String c EmptyString]
           end
  end.

(** The blanks of [str.isspace], at which [split()] cuts. *)
Definition is_space (c : ascii) : bool :=
  let n := nat_of_ascii c in
  ((9 <=? n) && (n <=? 13) || (28 <=? n) && (n <=? 32)
   || (n =? 133) || (n =? 160))%nat.

(** The blanks that [float()] and [int()] drop around a number: the ASCII
    blanks of C, and the blanks beyond ASCII. *)
Definition is_float_space (c : ascii) : bool :=
  let n := nat_of_ascii c in
  ((9 <=? n) && (n <=? 13) || (n =? 32) || (n =? 133) || (n =? 160))%nat.

(** [s.split()]: the maximal runs of non-blank characters. *)
Fixpoint words_from (cur : string) (s : string) : list string :=
  let flush := match cur with EmptyString => [] | _ => [cur] end in
  match s with
  | EmptyString => flush
  | String c s' =>
      if is_space c then flush ++ words_from EmptyString s'
      else words_from (cur ++ String c EmptyString) s'
  end.

Definition split_whitespace (s : string) : list string :=
  words_from EmptyString s.

Fixpoint lstrip (s : list ascii) : list ascii :=
  match s with
  | c :: s' => if is_float_space c then lstrip s' else s
  | [] => []
  end.

Definition strip (s : list ascii) : list ascii :=
  rev (lstrip (rev (lstrip s))).

Definition is_digit (c : ascii) : bool :=
  let n := nat_of_ascii c in ((48 <=? n) && (n <=? 57))%nat.

Definition digit_val (c : ascii) : Z := Z.of_nat (nat_of_ascii c - 48).

Definition lower (c : ascii) : ascii :=
  let n := nat_of_ascii c in
  if ((65 <=? n) && (n <=? 90))%nat then ascii_of_nat (n + 32) else c.

(** The rest of a digit part, [(["_"] digit)*]: the number read so far, the
    count of its digits, and what follows. *)
Fixpoint digits_tail (acc : Z) (n : nat) (s : list ascii) : Z * nat * list ascii :=
  match s with
  | c :: s' =>
      if is_digit c then digits_tail (10 * acc + digit_val c) (S n) s'
      else if Ascii.eqb c "_" then
        match s' with
        | d :: s'' =>
            if is_digit d then digits_tail (10 * acc + digit_val d) (S n) s''
            else (acc, n, s)
        | [] => (acc, n, s)
        end
      else (acc, n, s)
  | [] => (acc, n, s)
  end.

(** A digit part, [digit (["_"] digit)*], continuing the number [acc]. *)
Definition digitpart (acc : Z) (s : list ascii) : option (Z * nat * list ascii) :=
  match s with
  | c :: s' =>
      if is_digit c then Some (digits_tail (10 * acc + digit_val c) 1 s')
      else None
  | [] => None
  end.

(** An optional sign: [1] or [-1], and what follows. *)
Definition sign_of (s : list ascii) : Z * list ascii :=
  match s with
  | c :: s' =>
      if Ascii.eqb c "-" then (-1, s')%Z
      else if Ascii.eqb c "+" then (1%Z, s') else (1%Z, s)
  | [] => (1%Z, s)
  end.

(** What the text of a float denotes: [m * 10^e], an infinity, or [nan]. *)
Inductive literal : Type :=
| Decimal (m e : Z)
| Infinity (negative : bool)
| NotANumber.

(** An optional exponent that ends the text, after a mantissa [m] with [nd]
    digits behind the point. *)
Definition exponent_end (m : Z) (nd : nat) (s : list ascii) : option (Z * Z) :=
  match s with
  | [] => Some (m, (- Z.of_nat nd)%Z)
  | c :: s' =>
      if Ascii.eqb (lower c) "e" then
        let '(sg, s'') := sign_of s' in
        match digitpart 0 s'' with
        | Some (e, _, []) => Some (m, (sg * e - Z.of_nat nd)%Z)
        | _ => None
        end
      else None
  end.

(** [[digitpart] "." digitpart | digitpart ["."]], then the exponent. *)
Definition floatnumber (s : list ascii) : option (Z * Z) :=
  match digitpart 0 s with
  | Some (m, _, rest) =>
      match rest with
      | c :: rest' =>
          if Ascii.eqb c "." then
            match digitpart m rest' with
            | Some (m', nd, r) => exponent_end m' nd r
            | None => exponent_end m 0 rest'
            end
          else exponent_end m 0 rest
      | [] => exponent_end m 0 rest
      end
  | None =>
      match s with
      | c :: rest' =>
          if Ascii.eqb c "." then
            match digitpart 0 rest' with
            | Some (m', nd, r) => exponent_end m' nd r
            | None => None
            end
          else None
      | [] => None
      end
  end.

Definition floatvalue (s : list ascii) : option literal :=
  let '(sg, body) := sign_of s in
  let word := string_of_list_ascii (map lower body) in
  if (String.eqb word "inf" || String.eqb word "infinity")%bool then
    Some (Infinity (sg <? 0)%Z)
  else if String.eqb word "nan" then Some NotANumber
  else match floatnumber body with
       | Some (m, e) => Some (Decimal (sg * m) e)
       | None => None
       end.

(** The decimal [m * 10^e]. *)
Definition decimal (m e : Z) : R := IZR m * powerRZ 10 e.

Definition value_of (l : literal) : float64 :=
  match l with
  | Decimal m e => Fin (decimal m e)
  | Infinity negative => if negative then NInf else PInf
  | NotANumber => NaN
  end.

(** The text [float(s)] accepts, read as a literal. *)
Definition float_literal (s : string) : option literal :=
  floatvalue (strip (list_ascii_of_string s)).

(** [float(s)] on a string.  The value is the exact decimal: Python rounds
    it to the nearest binary64, to [inf] or to zero beyond the range. *)
Definition py_float (s : string) : result float64 :=
  match float_literal s with
  | Some l => Ok (value_of l)
  | None => Raise (ValueError s)
  end.

(** [int(s)] on a string, base 10. *)
Definition py_int (s : string) : result Z :=
  let '(sg, body) := sign_of (strip (list_ascii_of_string s)) in
  match digitpart 0 body with
  | Some (m, _, []) => Ok (sg * m)%Z
  | _ => Raise (ValueError s)
  end.

(** ** Lists: slices and element-wise arithmetic *)

(** A slice bound [i] on a list of length [n], as Python clamps it. *)
Definition slice_index (n : nat) (i : Z) : nat :=
  if (i <? 0)%Z then Z.to_nat (Z.max 0 (i + Z.of_nat n))
  else Nat.min (Z.to_nat i) n.

(** [l[lo:hi]]. *)
Definition py_slice {A : Type} (l : list A) (lo hi : Z) : list A :=
  let a := slice_index (length l) lo in
  let b := slice_index (length l) hi in
  firstn (b - a) (skipn a l).

(** An element-wise operation on two arrays of one length ([freq] and
    [react] are filled together, see [get_freq_react_loop_length]). *)
Fixpoint zip_with {A B C : Type} (f : A -> B -> C) (u : list A) (v : list B) : list C :=
  match u, v with
  | a :: u', b :: v' => f a b :: zip_with f u' v'
  | _, _ => []
  end.

(** ** The class [BIAnalysis] *)

Definition newline : ascii := ascii_of_nat 10.

Definition carriage_return : ascii := ascii_of_nat 13.

(** What [open(path)] in text mode hands to [read()]: every line ending of
    the file, [\r\n], [\r] or [\n], as a single [\n]. *)
Fixpoint universal_newlines (s : string) : string :=
  match s with
  | EmptyString => EmptyString
  | String c s' =>
      if Ascii.eqb c carriage_return then
        match s' with
        | String c' s'' =>
            if Ascii.eqb c' newline then String newline (universal_newlines s'')
            else String newline (universal_newlines s')
        | EmptyString => String newline EmptyString
        end
      else String c (universal_newlines s')
  end.

(** [read_file], on the characters of the file. *)
Definition read_file (content : string) : list string :=
  split newline (universal_newlines content).

Record Subject : Type := mkSubject {
  height : float64;
  weight : float64;
  age : Z;
  sex : string
}.

(** The four metadata assignments that open [__init__]. *)
Definition parse_subject (data : list string) : result Subject :=
  l2 <- getitem data 2;;
  t2 <- getitem (split " " l2) 1;;
  h <- py_float t2;;
  l3 <- getitem data 3;;
  t3 <- getitem (split " " l3) 1;;
  w <- py_float t3;;
  l4 <- getitem data 4;;
  t4 <- getitem (split " " l4) 1;;
  a <- py_int t4;;
  l5 <- getitem data 5;;
  s <- getitem (split " " l5) 1;;
  Ok (mkSubject h w a s).

Definition extract_impedance_data (data : list string) : list (list string) :=
  map (split ",") (py_slice data 13 (-1)).

Definition calculate_bmi (height weight : float64) : result float64 :=
  m <- py_div height (of_int 100);;
  py_div weight (fsquare m).

(** The loop of [get_freq_react_data], with the two lists built so far. *)
Fixpoint get_freq_react_loop (samples : list (list string))
    (freq react : list float64) : result (list float64 * list float64) :=
  match samples with
  | [] => Ok (freq, react)
  | sample :: rest =>
      t1 <- getitem sample 1;;
      f <- py_float t1;;
      t2 <- getitem sample 2;;
      x <- py_float t2;;
      get_freq_react_loop rest (freq ++ [f]) (react ++ [x])
  end.

Definition get_freq_react_data (impedance_data : list (list string))
  : result (list float64 * list float64) :=
  get_freq_react_loop impedance_data [] [].

Definition center : Type := (float64 * float64)%type.

Definition calc_R (freq react : list float64) (xc yc : float64) : list float64 :=
  map np_sqrt
    (zip_with fadd
       (map (fun f => fsquare (fsub f xc)) freq)
       (map (fun x => fsquare (fsub x yc)) react)).

Definition f_2 (freq react : list float64) (c : center) : list float64 :=
  let Ri := calc_R freq react (fst c) (snd c) in
  map (fun r => fsub r (np_mean Ri)) Ri.

(** The loop of [calculate_ffm] over [range(len(self.freq))]. *)
Fixpoint ffm_loop (height weight : float64) (age : Z) (freq react : list float64)
    (range : list nat) (FFM : list float64) : result (list float64) :=
  match range with
  | [] => Ok FFM
  | i :: rest =>
      fi <- getitem freq i;;
      q <- py_div (fmul (Fin 0.7374) (fsquare height)) fi;;
      let FFM_i := q in
      let FFM_i := fadd FFM_i (fmul (Fin 0.1763) weight) in
      let FFM_i := fsub FFM_i (fmul (Fin 0.1773) (of_int age)) in
      xi <- getitem react i;;
      let FFM_i := fadd FFM_i (fmul (Fin 0.1198) xi) in
      let FFM_i := fsub FFM_i (Fin 2.4658) in
      ffm_loop height weight age freq react rest (FFM ++ [FFM_i])
  end.

Definition calculate_ffm (height weight : float64) (age : Z)
    (freq react : list float64) : result float64 :=
  FFM <- ffm_loop height weight age freq react (seq 0 (length freq)) [];;
  Ok (np_mean FFM).

(** Returns [(Ri, Re)].  Every operand is a NumPy scalar, so nothing raises. *)
Definition calculate_resistance (c : center) (radius : float64)
  : result (float64 * float64) :=
  let a := fst c in
  let b := snd c in
  let r := radius in
  let x2 := fadd (np_sqrt (fsub (fsquare r) (fsquare b))) a in
  let x1 := fadd (fneg (np_sqrt (fsub (fsquare r) (fsquare b)))) a in
  let Re := x2 in
  let Ri := np_div (fmul x1 Re) (fsub Re x1) in
  Ok (Ri, Re).

(** Returns [(ecw, icw, tbw)]. *)
Definition calculate_body_water (height weight bmi re ri : float64)
  : result (float64 * float64 * float64) :=
  q1 <- py_div (Fin 0.188) bmi;;
  let k_ecw := fadd q1 (Fin 0.2883) in
  q2 <- py_div (Fin 5.8758) bmi;;
  let k_icw := fadd q2 (Fin 0.4194) in
  let ecw := fmul k_ecw
    (np_power (np_div (fmul (fsquare height) (np_sqrt weight)) re) (2 / 3)) in
  let icw := fmul k_icw
    (np_power (np_div (fmul (fsquare height) (np_sqrt weight)) ri) (2 / 3)) in
  let tbw := fadd ecw icw in
  Ok (ecw, icw, tbw).

(** What [__init__] has assigned once [get_freq_react_data] has returned. *)
Record Parsed : Type := mkParsed {
  subject : Subject;
  bmi : float64;
  impedance_data : list (list string);
  freq : list float64;
  react : list float64
}.

Definition init_parse (data : list string) : result Parsed :=
  s <- parse_subject data;;
  b <- calculate_bmi (height s) (weight s);;
  let rows := extract_impedance_data data in
  '(f, x) <- get_freq_react_data rows;;
  Ok (mkParsed s b rows f x).

Record BIAnalysis : Type := mkBIAnalysis {
  parsed : Parsed;
  radius : float64;
  fitted_center : center;
  ffm : float64;
  ri : float64;
  re : float64;
  ecw : float64;
  icw : float64;
  tbw : float64
}.

Section Fit.

(** [scipy.optimize.leastsq(func, x0)]: the residual function and the
    starting point go in, the solution and the status flag [ier] come out
    (1 to 4: a solution was found), unless the solver raises. *)
Variable leastsq : (center -> list float64) -> center -> result (center * Z).

(** Returns [(R, center)]. *)
Definition calculate_radius (freq react : list float64)
  : result (float64 * center) :=
  let x_m := np_mean freq in
  let center_estimate := (x_m, Fin 0) in
  '(c, ier) <- leastsq (f_2 freq react) center_estimate;;
  let Ri := calc_R freq react (fst c) (snd c) in
  let R := np_mean Ri in
  Ok (R, c).

(** [BIAnalysis.__init__], on the lines [read_file] returned. *)
Definition init (data : list string) : result BIAnalysis :=
  p <- init_parse data;;
  '(R, c) <- calculate_radius (freq p) (react p);;
  m <- calculate_ffm (height (subject p)) (weight (subject p))
         (age (subject p)) (freq p) (react p);;
  '(i, e) <- calculate_resistance c R;;
  '(ew, iw, tw) <- calculate_body_water (height (subject p))
                     (weight (subject p)) (bmi p) e i;;
  Ok (mkBIAnalysis p R c m i e ew iw tw).

End Fit.

(** The status flags with which [leastsq] reports a solution; any other
    flag (5: the budget of function calls is spent) reports none. *)
Definition converged (ier : Z) : bool := ((1 <=? ier) && (ier <=? 4))%Z.

(** A solver that spends its budget at once: it hands back the starting
    point with the flag 5. *)
Definition exhausted_solver (func : center -> list float64) (x0 : center)
  : result (center * Z) :=
  Ok (x0, 5%Z).

(** The same solver with the check that [leastsq] makes first: fewer
    residuals than unknowns, of which there are two, is a [TypeError]. *)
Definition checking_solver (func : center -> list float64) (x0 : center)
  : result (center * Z) :=
  if (length (func x0) <? 2)%nat then Raise TypeError else Ok (x0, 5%Z).

(** ** The summary and the entry point *)

(** What a [print] of [print_summary] formats: a number under [{:.3f}] or a
    text under [{:s}]. *)
Inductive cell : Type :=
| Fixed3 (v : float64)
| Text (s : string).

Fixpoint spaces (n : nat) : string :=
  match n with
  | O => EmptyString
  | S n' => String " " (spaces n')
  end.

(** [{:25s}]: left-justified in a column of [w] characters. *)
Definition ljust (w : nat) (s : string) : string :=
  (s ++ spaces (w - String.length s))%string.

(** The lines of [print_summary], in the order printed. *)
Definition print_summary (o : BIAnalysis) : list (string * cell) :=
  let s := subject (parsed o) in
  [ (ljust 25 "Wzrost", Fixed3 (height s));
    (ljust 25 "Waga", Fixed3 (weight s));
    (ljust 25 "Wiek", Fixed3 (of_int (age s)));
    (ljust 25 "Plec", Text (sex s));
    (ljust 25 "BMI", Fixed3 (bmi (parsed o)));
    (ljust 25 "Rezystancja Re", Fixed3 (re o));
    (ljust 25 "Rezystancja Ri", Fixed3 (ri o));
    (ljust 25 "Masa beztluszczowa", Fixed3 (ffm o));
    (ljust 25 "Plyn pozakomorkowy", Fixed3 (ecw o));
    (ljust 25 "Plyn wewnatrzkomorkowy", Fixed3 (icw o));
    (ljust 25 "Calkowita zawartosc plynu", Fixed3 (tbw o)) ].

(** What [main.py] does with its argument: print the one error line, or
    build the analysis of the file, plot it and print its summary. *)
Inductive action : Type :=
| PrintError (message : string)
| Analyse (path : string).

Definition error_message : string := "Zly format pliku lub plik nie istnieje".

(** [main.py]; [isfile] is [os.path.isfile] on the file system at hand. *)
Definition main (isfile : string -> bool) (path : string) : result action :=
  if negb (isfile path) then Ok (PrintError error_message)
  else
    ext <- getitem (split "." path) 1;;
    if negb (String.eqb ext "mfu") then Ok (PrintError error_message)
    else Ok (Analyse path).

(** ** The formulas of the specification *)

Module Spec.

(** Section 4.2: the distance from a candidate centre to a sample. *)
Definition dist (xc yc : R) (p : R * R) : R :=
  sqrt ((fst p - xc) ^ 2 + (snd p - yc) ^ 2).

Definition sum (l : list R) : R := fold_right Rplus 0 l.

(** The arithmetic mean. *)
Definition mean (l : list R) : R := sum l / INR (length l).

(** Section 4.2: the residual of sample [p] at the candidate centre. *)
Definition residual (sweep : list (R * R)) (xc yc : R) (p : R * R) : R :=
  dist xc yc p - mean (map (dist xc yc) sweep).

(** Section 4.3: the intercepts with the axis, and the resistances. *)
Definition x1 (a b r : R) : R := a - sqrt (r ^ 2 - b ^ 2).
Definition x2 (a b r : R) : R := a + sqrt (r ^ 2 - b ^ 2).
Definition Re (a b r : R) : R := x2 a b r.
Definition Ri (a b r : R) : R := (x1 a b r * Re a b r) / (Re a b r - x1 a b r).

(** Section 4.4. *)
Definition BMI (height weight : R) : R := weight / (height / 100) ^ 2.

Definition FFM_i (height weight : R) (age : Z) (p : R * R) : R :=
  0.7374 * height ^ 2 / fst p + 0.1763 * weight - 0.1773 * IZR age
  + 0.1198 * snd p - 2.4658.

Definition FFM (height weight : R) (age : Z) (sweep : list (R * R)) : R :=
  mean (map (FFM_i height weight age) sweep).

Definition k_ecw (bmi : R) : R := 0.188 / bmi + 0.2883.
Definition k_icw (bmi : R) : R := 5.8758 / bmi + 0.4194.

Definition ECW (height weight res : R) : R :=
  k_ecw (BMI height weight)
  * Rpower ((height ^ 2 * sqrt weight) / res) (2 / 3).

Definition ICW (height weight res : R) : R :=
  k_icw (BMI height weight)
  * Rpower ((height ^ 2 * sqrt weight) / res) (2 / 3).

End Spec.

(** A sweep of finite samples, as the two arrays of the object. *)
Definition freq_of (sweep : list (R * R)) : list float64 :=
  map (fun p => Fin (fst p)) sweep.
Definition react_of (sweep : list (R * R)) : list float64 :=
  map (fun p => Fin (snd p)) sweep.

(** ** The layout of the input file *)

(** Section 4.1 as written: the second whitespace-separated token of a
    line. *)
Definition second_token (line : string) : option string :=
  nth_error (split_whitespace line) 1.

(** Field [i] of a line cut at every occurrence of [sep]. *)
Definition field_of (sep : ascii) (line : string) (i : nat) : option string :=
  nth_error (split sep line) i.

(** The metadata lines: the value of each attribute is field 1 of its line,
    cut at every single space. *)
Definition subject_layout (data : list string) (s : Subject) : Prop :=
  exists l2 l3 l4 l5 t2 t3 t4,
    nth_error data 2 = Some l2 /\ field_of " " l2 1 = Some t2
    /\ py_float t2 = Ok (height s)
    /\ nth_error data 3 = Some l3 /\ field_of " " l3 1 = Some t3
    /\ py_float t3 = Ok (weight s)
    /\ nth_error data 4 = Some l4 /\ field_of " " l4 1 = Some t4
    /\ py_int t4 = Ok (age s)
    /\ nth_error data 5 = Some l5 /\ field_of " " l5 1 = Some (sex s).

(** A sample row read as a pair: field 1 is the frequency, field 2 the
    reactance. *)
Definition row_reads (row : list string) (sample : float64 * float64) : Prop :=
  exists t1 t2,
    nth_error row 1 = Some t1 /\ py_float t1 = Ok (fst sample)
    /\ nth_error row 2 = Some t2 /\ py_float t2 = Ok (snd sample).


(** ** Sample files *)

(** A file of the expected shape: two heading lines, the four metadata
    lines, seven more heading lines, the sample rows, and the empty last
    line that a final newline leaves. *)
Definition metadata_lines (height_line : string) : list string :=
  ["MFU"; "Pomiar"; height_line; "Waga 70"; "Wiek 30"; "Plec M"]%string.

Definition mfu_file (height_line : string) (rows : list string) : list string :=
  metadata_lines height_line ++ repeat EmptyString 7 ++ rows ++ [EmptyString].

Definition three_rows : list string :=
  ["1,50,-30"; "2,60,-20"; "3,70,-30"]%string.

(** Two spaces between the label and the height. *)
Definition file_two_spaces : list string := mfu_file "Wzrost  170" three_rows.


(** The metadata lines and nothing after them: six lines. *)
Definition file_short : list string := metadata_lines "Wzrost 170".

Definition subject_170_70 : Subject :=
  mkSubject (Fin (decimal 170 0)) (Fin (decimal 70 0)) 30 "M".

(** ** The summary dictionary *)

(** What an entry of the summary holds: a float, an [int] or a [str]. *)
Inductive value : Type :=
| VFloat (v : float64)
| VInt (z : Z)
| VStr (s : string).

(** [get_summary]: the dictionary, as its items in the order of insertion. *)
Definition get_summary (o : BIAnalysis) : list (string * value) :=
  let s := subject (parsed o) in
  [ ("height", VFloat (height s));
    ("weight", VFloat (weight s));
    ("age", VInt (age s));
    ("sex", VStr (sex s));
    ("bmi", VFloat (bmi (parsed o)));
    ("ri", VFloat (ri o));
    ("re", VFloat (re o));
    ("ffm", VFloat (ffm o));
    ("ecw", VFloat (ecw o));
    ("icw", VFloat (icw o));
    ("tbw", VFloat (tbw o)) ]%string.

(** [d.get(k)]. *)
Fixpoint lookup (k : string) (d : list (string * value)) : option value :=
  match d with
  | [] => None
  | (k', v) :: d' => if String.eqb k k' then Some v else lookup k d'
  end.

(** How [print_summary] formats a value: [{:.3f}] for a number, [{:s}] for
    a text. *)
Definition cell_of (v : value) : cell :=
  match v with
  | VFloat x => Fixed3 x
  | VInt z => Fixed3 (of_int z)
  | VStr s => Text s
  end.

(** ** Further notions on texts *)

(** [sep.join(l)]. *)
Fixpoint join (sep : ascii) (l : list string) : string :=
  match l with
  | [] => EmptyString
  | w :: rest =>
      match rest with
      | [] => w
      | _ => (w ++ String sep (join sep rest))%string
      end
  end.

(** [sep.join(l)] for a separator of any length. *)
Fixpoint join_str (sep : string) (l : list string) : string :=
  match l with
  | [] => EmptyString
  | w :: rest =>
      match rest with
      | [] => w
      | _ => (w ++ sep ++ join_str sep rest)%string
      end
  end.

(** The line ending [\r\n]. *)
Definition crlf : string := String carriage_return (String newline EmptyString).

(** The character [c] does not occur in [s]. *)
Fixpoint lacks (c : ascii) (s : string) : Prop :=
  match s with
  | EmptyString => True
  | String c' s' => c' <> c /\ lacks c s'
  end.

(** The number of occurrences of [c] in [s]. *)
Fixpoint occurrences (c : ascii) (s : string) : nat :=
  match s with
  | EmptyString => 0
  | String c' s' => (if Ascii.eqb c' c then 1 else 0) + occurrences c s'
  end.

(** ** Arithmetic on finite values *)

Lemma np_sqrt_fin (x : R) : 0 <= x -> np_sqrt (Fin x) = Fin (sqrt x).
Proof.
  intros Hx. unfold np_sqrt. destruct (Rlt_dec x 0); [lra | reflexivity].
Qed.

Lemma np_sqrt_neg (x : R) : x < 0 -> np_sqrt (Fin x) = NaN.
Proof.
  intros Hx. unfold np_sqrt. destruct (Rlt_dec x 0); [reflexivity | lra].
Qed.

Lemma np_div_fin (x y : R) : y <> 0 -> np_div (Fin x) (Fin y) = Fin (x / y).
Proof.
  intros Hy. unfold np_div. destruct (Req_dec_T y 0); [contradiction | reflexivity].
Qed.

Lemma np_div_zero (x : R) : np_div (Fin x) (Fin 0) = inf_of_sign x.
Proof.
  unfold np_div. destruct (Req_dec_T 0 0); [reflexivity | lra].
Qed.

Lemma py_div_fin (x y : R) : y <> 0 -> py_div (Fin x) (Fin y) = Ok (Fin (x / y)).
Proof.
  intros Hy. unfold py_div. destruct (Req_dec_T y 0); [contradiction |].
  now rewrite np_div_fin.
Qed.

Lemma py_div_zero (u : float64) : py_div u (Fin 0) = Raise ZeroDivisionError.
Proof.
  unfold py_div. destruct (Req_dec_T 0 0); [reflexivity | lra].
Qed.

Lemma np_power_pos (x y : R) : 0 < x -> np_power (Fin x) y = Fin (Rpower x y).
Proof.
  intros Hx. unfold np_power.
  destruct (Rlt_dec x 0); [lra |]. destruct (Req_dec_T x 0); [lra | reflexivity].
Qed.

Lemma inf_of_sign_pos (x : R) : 0 < x -> inf_of_sign x = PInf.
Proof.
  intros Hx. unfold inf_of_sign.
  destruct (Req_dec_T x 0); [lra |]. destruct (Rlt_dec 0 x); [reflexivity | lra].
Qed.

Lemma inf_of_sign_zero : inf_of_sign 0 = NaN.
Proof.
  unfold inf_of_sign. destruct (Req_dec_T 0 0); [reflexivity | lra].
Qed.

Lemma np_sum_fin_acc (l : list R) (acc : R) :
  fold_left fadd (map Fin l) (Fin acc) = Fin (acc + Spec.sum l).
Proof.
  revert acc. induction l as [| x l IH]; intros acc; simpl.
  - f_equal. lra.
  - rewrite IH. f_equal. lra.
Qed.

Lemma np_sum_fin (l : list R) : np_sum (map Fin l) = Fin (Spec.sum l).
Proof.
  unfold np_sum. rewrite np_sum_fin_acc. f_equal. lra.
Qed.

Lemma INR_length_neq_0 {A : Type} (l : list A) : l <> [] -> INR (length l) <> 0.
Proof.
  intros Hl. destruct l as [| a l]; [contradiction |].
  apply not_0_INR. simpl. lia.
Qed.

Lemma np_mean_fin (l : list R) :
  l <> [] -> np_mean (map Fin l) = Fin (Spec.mean l).
Proof.
  intros Hl. unfold np_mean, Spec.mean.
  destruct l as [| x l]; [contradiction |].
  change (map Fin (x :: l)) with (Fin x :: map Fin l) at 1.
  cbv iota beta. rewrite np_sum_fin, length_map.
  apply np_div_fin, INR_length_neq_0. discriminate.
Qed.

(** ** Resistance extraction *)

Lemma radicand_eq (b r : R) : r * r + - (b * b) = r ^ 2 - b ^ 2.
Proof. ring. Qed.

(** The two intercepts and the denominator of [Ri], on finite inputs whose
    radicand is not negative. *)
Lemma calculate_resistance_fin (a b r : R) :
  b ^ 2 <= r ^ 2 ->
  calculate_resistance (Fin a, Fin b) (Fin r)
  = Ok (np_div (Fin (Spec.x1 a b r * Spec.Re a b r))
               (Fin (Spec.Re a b r - Spec.x1 a b r)),
        Fin (Spec.Re a b r)).
Proof.
  intros Hrb. unfold calculate_resistance, fsquare, fsub. cbn [fst snd fmul fneg fadd].
  rewrite radicand_eq, np_sqrt_fin by lra. cbn [fneg fadd fmul].
  unfold Spec.Re, Spec.x2, Spec.x1.
  set (s := sqrt (r ^ 2 - b ^ 2)).
  replace ((- s + a) * (s + a)) with ((a - s) * (a + s)) by ring.
  replace (s + a + - (- s + a)) with (a + s - (a - s)) by ring.
  replace (s + a) with (a + s) by ring.
  reflexivity.
Qed.

(** C2.  For a fitted circle with centre [(a, b)] and radius [r] such that
    [r^2 >= b^2] and [Re <> x1], [calculate_resistance] returns
    [Re = a + sqrt (r^2 - b^2)], the larger intercept, and
    [Ri = (x1 * Re) / (Re - x1)] with [x1 = a - sqrt (r^2 - b^2)]. *)
Theorem calculate_resistance_formula (a b r : R) :
  b ^ 2 <= r ^ 2 ->
  Spec.Re a b r <> Spec.x1 a b r ->
  calculate_resistance (Fin a, Fin b) (Fin r)
  = Ok (Fin (Spec.Ri a b r), Fin (Spec.Re a b r))
  /\ Spec.Re a b r = a + sqrt (r ^ 2 - b ^ 2)
  /\ Spec.x1 a b r <= Spec.Re a b r.
Proof.
  intros Hrb Hne. split; [| split].
  - rewrite calculate_resistance_fin by assumption.
    rewrite np_div_fin by lra. reflexivity.
  - reflexivity.
  - unfold Spec.Re, Spec.x2, Spec.x1.
    pose proof (sqrt_pos (r ^ 2 - b ^ 2)). lra.
Qed.

Lemma calculate_resistance_formula_witness :
  0 ^ 2 <= 1 ^ 2 /\ Spec.Re 2 0 1 <> Spec.x1 2 0 1
  /\ calculate_resistance (Fin 2, Fin 0) (Fin 1)
     = Ok (Fin (Spec.Ri 2 0 1), Fin (Spec.Re 2 0 1)).
Proof.
  assert (Hs : sqrt (1 ^ 2 - 0 ^ 2) = 1).
  { replace (1 ^ 2 - 0 ^ 2) with 1 by ring. apply sqrt_1. }
  assert (H1 : 0 ^ 2 <= 1 ^ 2) by lra.
  assert (H2 : Spec.Re 2 0 1 <> Spec.x1 2 0 1).
  { unfold Spec.Re, Spec.x2, Spec.x1. rewrite Hs. lra. }
  split; [exact H1 | split; [exact H2 |]].
  exact (proj1 (calculate_resistance_formula 2 0 1 H1 H2)).
Defined.

(** The radicand is negative: both results are [nan], and nothing is raised. *)
Lemma calculate_resistance_nan (a b r : R) :
  r ^ 2 < b ^ 2 ->
  calculate_resistance (Fin a, Fin b) (Fin r) = Ok (NaN, NaN).
Proof.
  intros Hrb. unfold calculate_resistance, fsquare, fsub. cbn [fst snd fmul fneg fadd].
  rewrite radicand_eq, np_sqrt_neg by lra. reflexivity.
Qed.

(** The two intercepts coincide: [Re] is [a] and the division is by zero. *)
Lemma calculate_resistance_degenerate (a b r : R) :
  b ^ 2 <= r ^ 2 ->
  Spec.Re a b r = Spec.x1 a b r ->
  calculate_resistance (Fin a, Fin b) (Fin r)
  = Ok (if Req_dec_T a 0 then NaN else PInf, Fin a).
Proof.
  intros Hrb Heq. rewrite calculate_resistance_fin by assumption.
  assert (Hs : sqrt (r ^ 2 - b ^ 2) = 0).
  { unfold Spec.Re, Spec.x2, Spec.x1 in Heq. lra. }
  unfold Spec.Re, Spec.x2, Spec.x1. rewrite Hs.
  replace (a + 0 - (a - 0)) with 0 by ring.
  replace ((a - 0) * (a + 0)) with (a * a) by ring.
  replace (a + 0) with a by ring.
  rewrite np_div_zero. f_equal. f_equal.
  destruct (Req_dec_T a 0) as [Ha | Ha].
  - subst a. replace (0 * 0) with 0 by ring. apply inf_of_sign_zero.
  - apply inf_of_sign_pos. nra.
Qed.

(** C6, as the code has it.  [calculate_resistance] raises nothing.  When
    [r^2 < b^2] it returns [nan] for both resistances; when the two
    intercepts coincide it returns [Re = a] with [Ri] infinite (or [nan]
    when [a] is zero). *)
Theorem calculate_resistance_never_raises (a b r : R) :
  (r ^ 2 < b ^ 2 ->
   calculate_resistance (Fin a, Fin b) (Fin r) = Ok (NaN, NaN))
  /\ (b ^ 2 <= r ^ 2 -> Spec.Re a b r = Spec.x1 a b r ->
      calculate_resistance (Fin a, Fin b) (Fin r)
      = Ok (if Req_dec_T a 0 then NaN else PInf, Fin a))
  /\ (forall e, calculate_resistance (Fin a, Fin b) (Fin r) <> Raise e).
Proof.
  split; [| split].
  - apply calculate_resistance_nan.
  - apply calculate_resistance_degenerate.
  - intros e. unfold calculate_resistance. discriminate.
Qed.

Lemma calculate_resistance_never_raises_witness :
  calculate_resistance (Fin 0, Fin 2) (Fin 1) = Ok (NaN, NaN)
  /\ calculate_resistance (Fin 5, Fin 1) (Fin 1) = Ok (PInf, Fin 5).
Proof.
  split.
  - apply (proj1 (calculate_resistance_never_raises 0 2 1)). lra.
  - assert (Hs : sqrt (1 ^ 2 - 1 ^ 2) = 0).
    { replace (1 ^ 2 - 1 ^ 2) with 0 by ring. apply sqrt_0. }
    assert (H := proj1 (proj2 (calculate_resistance_never_raises 5 1 1))).
    destruct (Req_dec_T 5 0) as [H5 | H5]; [lra |].
    apply H; [lra |]. unfold Spec.Re, Spec.x2, Spec.x1. rewrite Hs. ring.
Defined.

(** C6, as the specification states it, fails: a circle that does not reach
    the axis ([b = 2 > r = 1]) gives [nan] resistances and no [DomainError];
    a circle tangent to the axis gives an infinite [Ri] and no
    [DivisionError]. *)
Lemma calculate_resistance_no_domain_error :
  1 ^ 2 < 2 ^ 2
  /\ calculate_resistance (Fin 0, Fin 2) (Fin 1) = Ok (NaN, NaN)
  /\ calculate_resistance (Fin 0, Fin 2) (Fin 1) <> Raise DomainError
  /\ Spec.Re 5 1 1 = Spec.x1 5 1 1
  /\ calculate_resistance (Fin 5, Fin 1) (Fin 1) = Ok (PInf, Fin 5)
  /\ calculate_resistance (Fin 5, Fin 1) (Fin 1) <> Raise DivisionError.
Proof.
  assert (Hs : sqrt (1 ^ 2 - 1 ^ 2) = 0).
  { replace (1 ^ 2 - 1 ^ 2) with 0 by ring. apply sqrt_0. }
  assert (Heq : Spec.Re 5 1 1 = Spec.x1 5 1 1).
  { unfold Spec.Re, Spec.x2, Spec.x1. rewrite Hs. ring. }
  assert (H1 : calculate_resistance (Fin 0, Fin 2) (Fin 1) = Ok (NaN, NaN)).
  { apply calculate_resistance_nan. lra. }
  assert (H2 : calculate_resistance (Fin 5, Fin 1) (Fin 1) = Ok (PInf, Fin 5)).
  { rewrite calculate_resistance_degenerate by (lra || exact Heq).
    destruct (Req_dec_T 5 0); [lra | reflexivity]. }
  repeat split; try assumption; try lra.
  - rewrite H1. discriminate.
  - rewrite H2. discriminate.
Qed.

(** ** BMI and the water compartments *)

Lemma calculate_bmi_fin (h w : R) :
  h <> 0 -> calculate_bmi (Fin h) (Fin w) = Ok (Fin (Spec.BMI h w)).
Proof.
  intros Hh. unfold calculate_bmi, of_int.
  rewrite py_div_fin by lra. cbn [bind fsquare fmul].
  rewrite py_div_fin by nra.
  unfold Spec.BMI. do 2 f_equal. field. lra.
Qed.

Lemma BMI_pos (h w : R) : 0 < h -> 0 < w -> 0 < Spec.BMI h w.
Proof.
  intros Hh Hw. unfold Spec.BMI. apply Rdiv_lt_0_compat; [assumption |].
  apply pow_lt. lra.
Qed.

Lemma water_base_pos (h w res : R) :
  0 < h -> 0 < w -> 0 < res -> 0 < (h ^ 2 * sqrt w) / res.
Proof.
  intros Hh Hw Hres. apply Rdiv_lt_0_compat; [| assumption].
  apply Rmult_lt_0_compat; [apply pow_lt; assumption | apply sqrt_lt_R0; assumption].
Qed.

(** C4.  For [height > 0], [weight > 0], [Re > 0] and [Ri > 0], with the BMI
    that [calculate_bmi] computes, [weight / (height / 100)^2],
    [calculate_body_water] returns
    [ecw = (0.188 / bmi + 0.2883) * ((height^2 * sqrt weight) / Re) ^ (2/3)],
    [icw = (5.8758 / bmi + 0.4194) * ((height^2 * sqrt weight) / Ri) ^ (2/3)]
    and [tbw = ecw + icw]. *)
Theorem calculate_body_water_formula (h w Re Ri : R) :
  0 < h -> 0 < w -> 0 < Re -> 0 < Ri ->
  calculate_bmi (Fin h) (Fin w) = Ok (Fin (w / (h / 100) ^ 2))
  /\ calculate_body_water (Fin h) (Fin w) (Fin (w / (h / 100) ^ 2)) (Fin Re) (Fin Ri)
     = Ok (Fin (Spec.ECW h w Re), Fin (Spec.ICW h w Ri),
           Fin (Spec.ECW h w Re + Spec.ICW h w Ri))
  /\ Spec.ECW h w Re
     = (0.188 / (w / (h / 100) ^ 2) + 0.2883)
       * Rpower ((h ^ 2 * sqrt w) / Re) (2 / 3)
  /\ Spec.ICW h w Ri
     = (5.8758 / (w / (h / 100) ^ 2) + 0.4194)
       * Rpower ((h ^ 2 * sqrt w) / Ri) (2 / 3).
Proof.
  intros Hh Hw HRe HRi.
  pose proof (BMI_pos h w Hh Hw) as Hb. unfold Spec.BMI in Hb.
  split; [| split; [| split]]; try reflexivity.
  - apply calculate_bmi_fin. lra.
  - unfold calculate_body_water.
    rewrite !py_div_fin by lra. cbn [bind fadd fsquare fmul].
    rewrite np_sqrt_fin by lra. cbn [fmul].
    rewrite !np_div_fin by lra.
    replace (h * h * sqrt w / Re) with ((h ^ 2 * sqrt w) / Re) by (field; lra).
    replace (h * h * sqrt w / Ri) with ((h ^ 2 * sqrt w) / Ri) by (field; lra).
    rewrite !np_power_pos by (apply water_base_pos; assumption).
    reflexivity.
Qed.

Lemma calculate_body_water_formula_witness :
  calculate_body_water (Fin 170) (Fin 70) (Fin (70 / (170 / 100) ^ 2)) (Fin 100) (Fin 50)
  = Ok (Fin (Spec.ECW 170 70 100), Fin (Spec.ICW 170 70 50),
        Fin (Spec.ECW 170 70 100 + Spec.ICW 170 70 50)).
Proof.
  apply (proj1 (proj2 (calculate_body_water_formula 170 70 100 50
                         ltac:(lra) ltac:(lra) ltac:(lra) ltac:(lra)))).
Defined.

(** ** Fat-free mass *)

Lemma skipn_nth_error {A : Type} (l : list A) (k : nat) (a : A) :
  nth_error l k = Some a -> skipn k l = a :: skipn (S k) l.
Proof.
  revert k. induction l as [| b l IH]; intros [| k] H; simpl in *; try discriminate.
  - now inversion H.
  - apply IH. exact H.
Qed.

Lemma getitem_map {A B : Type} (f : A -> B) (l : list A) (k : nat) (a : A) :
  nth_error l k = Some a -> getitem (map f l) k = Ok (f a).
Proof.
  intros H. unfold getitem. rewrite nth_error_map, H. reflexivity.
Qed.

(** One turn of the loop on a finite sample of non-zero frequency. *)
Lemma ffm_loop_step (h w : R) (a : Z) (sweep : list (R * R)) (p : R * R)
    (i : nat) (rest : list nat) (acc : list float64) :
  nth_error sweep i = Some p -> fst p <> 0 ->
  ffm_loop (Fin h) (Fin w) a (freq_of sweep) (react_of sweep) (i :: rest) acc
  = ffm_loop (Fin h) (Fin w) a (freq_of sweep) (react_of sweep) rest
      (acc ++ [Fin (Spec.FFM_i h w a p)]).
Proof.
  intros Hp Hf. cbn [ffm_loop]. unfold freq_of, react_of.
  rewrite (getitem_map _ _ _ _ Hp). cbn [bind fsquare fmul].
  rewrite py_div_fin by assumption. cbn [bind].
  rewrite (getitem_map _ _ _ _ Hp). cbn [bind].
  unfold of_int, fsub. cbn [fmul fadd fneg].
  replace (0.7374 * (h * h) / fst p + 0.1763 * w + - (0.1773 * IZR a)
           + 0.1198 * snd p + - (2.4658))
    with (Spec.FFM_i h w a p) by (unfold Spec.FFM_i; field; assumption).
  reflexivity.
Qed.

Lemma ffm_loop_fin (h w : R) (a : Z) (sweep : list (R * R)) :
  Forall (fun p => fst p <> 0) sweep ->
  forall (n k : nat) (acc : list float64),
    (k + n = length sweep)%nat ->
    ffm_loop (Fin h) (Fin w) a (freq_of sweep) (react_of sweep) (seq k n) acc
    = Ok (acc ++ map Fin (map (Spec.FFM_i h w a) (skipn k sweep))).
Proof.
  intros Hall. induction n as [| n IH]; intros k acc Hk.
  - rewrite skipn_all2 by lia. cbn. now rewrite app_nil_r.
  - destruct (nth_error sweep k) as [p |] eqn:Hp.
    2: { apply nth_error_None in Hp. lia. }
    assert (Hf : fst p <> 0).
    { rewrite Forall_forall in Hall. apply Hall. eapply nth_error_In. exact Hp. }
    cbn [seq]. rewrite (ffm_loop_step h w a sweep p k _ acc Hp Hf).
    rewrite IH by lia. rewrite (skipn_nth_error _ _ _ Hp).
    cbn [map]. rewrite <- app_assoc. reflexivity.
Qed.

Lemma sum_repeat (v : R) (n : nat) : Spec.sum (repeat v n) = INR n * v.
Proof.
  induction n as [| n IH].
  - cbn. ring.
  - rewrite S_INR. cbn [repeat Spec.sum fold_right].
    change (fold_right Rplus 0 (repeat v n)) with (Spec.sum (repeat v n)).
    rewrite IH. ring.
Qed.

Lemma mean_repeat (v : R) (n : nat) : (1 <= n)%nat -> Spec.mean (repeat v n) = v.
Proof.
  intros Hn. unfold Spec.mean. rewrite sum_repeat, repeat_length.
  field. apply not_0_INR. lia.
Qed.

(** C3.  For a sweep of [n >= 1] samples, every frequency non-zero,
    [calculate_ffm] returns the arithmetic mean over the samples of
    [0.7374 * height^2 / frequency_i + 0.1763 * weight - 0.1773 * age
     + 0.1198 * reactance_i - 2.4658]; for a sweep of identical samples
    this is the value of the formula on the one sample. *)
Theorem calculate_ffm_mean (h w : R) (a : Z) (sweep : list (R * R)) :
  (1 <= length sweep)%nat ->
  Forall (fun p => fst p <> 0) sweep ->
  calculate_ffm (Fin h) (Fin w) a (freq_of sweep) (react_of sweep)
  = Ok (Fin (Spec.mean (map (Spec.FFM_i h w a) sweep)))
  /\ (forall p : R * R, sweep = repeat p (length sweep) ->
      calculate_ffm (Fin h) (Fin w) a (freq_of sweep) (react_of sweep)
      = Ok (Fin (0.7374 * h ^ 2 / fst p + 0.1763 * w - 0.1773 * IZR a
                 + 0.1198 * snd p - 2.4658))).
Proof.
  intros Hn Hall.
  assert (Hmean : calculate_ffm (Fin h) (Fin w) a (freq_of sweep) (react_of sweep)
                  = Ok (Fin (Spec.mean (map (Spec.FFM_i h w a) sweep)))).
  { unfold calculate_ffm.
    replace (length (freq_of sweep)) with (length sweep)
      by (unfold freq_of; now rewrite length_map).
    rewrite (ffm_loop_fin h w a sweep Hall (length sweep) 0 []) by lia.
    cbn [bind skipn app]. rewrite np_mean_fin; [reflexivity |].
    destruct sweep; [cbn in Hn; lia | discriminate]. }
  split; [exact Hmean |].
  intros p Hrep. rewrite Hmean. do 2 f_equal.
  rewrite Hrep, map_repeat, mean_repeat by assumption. reflexivity.
Qed.

Lemma calculate_ffm_mean_witness :
  calculate_ffm (Fin 170) (Fin 70) 30 (freq_of [(50, -30); (50, -30)])
    (react_of [(50, -30); (50, -30)])
  = Ok (Fin (0.7374 * 170 ^ 2 / 50 + 0.1763 * 70 - 0.1773 * 30
             + 0.1198 * -30 - 2.4658)).
Proof.
  refine (proj2 (calculate_ffm_mean 170 70 30 [(50, -30); (50, -30)] _ _)
            (50, -30) eq_refl).
  - simpl. lia.
  - repeat constructor; simpl; lra.
Defined.

(** ** The circle fit *)

Lemma sum_of_squares_nonneg (u v : R) : 0 <= u * u + v * v.
Proof.
  pose proof (Rle_0_sqr u) as Hu. pose proof (Rle_0_sqr v) as Hv.
  unfold Rsqr in Hu, Hv. lra.
Qed.

Lemma calc_R_fin (sweep : list (R * R)) (xc yc : R) :
  calc_R (freq_of sweep) (react_of sweep) (Fin xc) (Fin yc)
  = map Fin (map (Spec.dist xc yc) sweep).
Proof.
  unfold calc_R, freq_of, react_of.
  induction sweep as [| [f x] sweep IH]; [reflexivity |].
  cbn [map zip_with]. rewrite IH. f_equal.
  unfold fsquare, fsub. cbn [fneg fadd fmul fst snd].
  rewrite np_sqrt_fin by apply sum_of_squares_nonneg.
  unfold Spec.dist. cbn [fst snd]. do 2 f_equal. ring.
Qed.

Lemma f_2_fin (sweep : list (R * R)) (xc yc : R) :
  sweep <> [] ->
  f_2 (freq_of sweep) (react_of sweep) (Fin xc, Fin yc)
  = map (fun p => Fin (Spec.residual sweep xc yc p)) sweep.
Proof.
  intros Hne. unfold f_2. cbn [fst snd].
  rewrite calc_R_fin, np_mean_fin.
  2: { destruct sweep; [contradiction | discriminate]. }
  rewrite !map_map. apply map_ext. intros p.
  unfold fsub. cbn [fneg fadd]. reflexivity.
Qed.

Lemma freq_mean_fin (sweep : list (R * R)) :
  sweep <> [] -> np_mean (freq_of sweep) = Fin (Spec.mean (map fst sweep)).
Proof.
  intros Hne. unfold freq_of. rewrite <- (map_map fst Fin).
  apply np_mean_fin. destruct sweep; [contradiction | discriminate].
Qed.

(** What [calculate_radius] does with the answer of the solver: the status
    flag is dropped, a raised exception passes through. *)
Lemma calculate_radius_unfold
    (leastsq : (center -> list float64) -> center -> result (center * Z))
    (freq react : list float64) :
  calculate_radius leastsq freq react
  = match leastsq (f_2 freq react) (np_mean freq, Fin 0) with
    | Ok (c, _) => Ok (np_mean (calc_R freq react (fst c) (snd c)), c)
    | Raise e => Raise e
    end.
Proof.
  unfold calculate_radius, bind.
  destruct (leastsq (f_2 freq react) (np_mean freq, Fin 0)) as [[c ier] | e];
    reflexivity.
Qed.

(** C1.  On a sweep of at least three samples, [calculate_radius] hands the
    solver the residual function whose entry for sample [i] is the distance
    [R_i] from the candidate centre to [(frequency_i, reactance_i)] minus
    the mean of all [R_j], and the starting point [(mean frequency, 0.0)];
    it returns the centre the solver found, with the mean of the [R_i] at
    that centre as the radius. *)
Theorem calculate_radius_least_squares
    (leastsq : (center -> list float64) -> center -> result (center * Z))
    (sweep : list (R * R)) :
  (3 <= length sweep)%nat ->
  (forall xc yc : R,
      f_2 (freq_of sweep) (react_of sweep) (Fin xc, Fin yc)
      = map (fun p => Fin (Spec.dist xc yc p
                           - Spec.mean (map (Spec.dist xc yc) sweep))) sweep)
  /\ calculate_radius leastsq (freq_of sweep) (react_of sweep)
     = ('(c, ier) <- leastsq (f_2 (freq_of sweep) (react_of sweep))
                       (Fin (Spec.mean (map fst sweep)), Fin 0);;
        Ok (np_mean (calc_R (freq_of sweep) (react_of sweep) (fst c) (snd c)), c))
  /\ (forall (xc yc : R) (ier : Z),
         leastsq (f_2 (freq_of sweep) (react_of sweep))
           (Fin (Spec.mean (map fst sweep)), Fin 0)
         = Ok ((Fin xc, Fin yc), ier) ->
         calculate_radius leastsq (freq_of sweep) (react_of sweep)
         = Ok (Fin (Spec.mean (map (Spec.dist xc yc) sweep)), (Fin xc, Fin yc))).
Proof.
  intros Hn.
  assert (Hne : sweep <> []) by (destruct sweep; [cbn in Hn; lia | discriminate]).
  split; [| split].
  - intros xc yc. apply f_2_fin. exact Hne.
  - unfold calculate_radius. rewrite freq_mean_fin by exact Hne. reflexivity.
  - intros xc yc ier Hsol. rewrite calculate_radius_unfold.
    rewrite freq_mean_fin by exact Hne. rewrite Hsol. cbn [fst snd].
    rewrite calc_R_fin, np_mean_fin; [reflexivity |].
    destruct sweep; [contradiction | discriminate].
Qed.

Lemma calculate_radius_least_squares_witness :
  calculate_radius exhausted_solver
    (freq_of [(1, 0); (2, 1); (3, 0)]) (react_of [(1, 0); (2, 1); (3, 0)])
  = Ok (Fin (Spec.mean (map (Spec.dist (Spec.mean [1; 2; 3]) 0)
                          [(1, 0); (2, 1); (3, 0)])),
        (Fin (Spec.mean [1; 2; 3]), Fin 0)).
Proof.
  refine (proj2 (proj2 (calculate_radius_least_squares exhausted_solver
                          [(1, 0); (2, 1); (3, 0)] _))
            (Spec.mean [1; 2; 3]) 0 5%Z eq_refl).
  simpl. lia.
Defined.

(** C7, as the code has it.  [calculate_radius] never looks at the status
    flag: whatever centre the solver returns, with whatever flag, comes back
    with the mean distance to it as the radius; the only failures are the
    exceptions the solver itself raises. *)
Theorem calculate_radius_ignores_status
    (leastsq : (center -> list float64) -> center -> result (center * Z))
    (freq react : list float64) :
  (forall (c : center) (ier : Z),
      leastsq (f_2 freq react) (np_mean freq, Fin 0) = Ok (c, ier) ->
      calculate_radius leastsq freq react
      = Ok (np_mean (calc_R freq react (fst c) (snd c)), c))
  /\ (forall e : exn,
         calculate_radius leastsq freq react = Raise e
         <-> leastsq (f_2 freq react) (np_mean freq, Fin 0) = Raise e).
Proof.
  rewrite calculate_radius_unfold. split.
  - intros c ier Hsol. rewrite Hsol. reflexivity.
  - intros e.
    destruct (leastsq (f_2 freq react) (np_mean freq, Fin 0)) as [[c ier] | e'].
    + split; discriminate.
    + split; intros H; inversion H; reflexivity.
Qed.

Lemma calculate_radius_ignores_status_witness :
  converged 5 = false
  /\ calculate_radius exhausted_solver [Fin 1; Fin 2; Fin 3] [Fin 0; Fin 1; Fin 0]
     = Ok (np_mean (calc_R [Fin 1; Fin 2; Fin 3] [Fin 0; Fin 1; Fin 0]
                      (np_mean [Fin 1; Fin 2; Fin 3]) (Fin 0)),
           (np_mean [Fin 1; Fin 2; Fin 3], Fin 0)).
Proof.
  split; [reflexivity |].
  exact (proj1 (calculate_radius_ignores_status exhausted_solver
                  [Fin 1; Fin 2; Fin 3] [Fin 0; Fin 1; Fin 0])
           (np_mean [Fin 1; Fin 2; Fin 3], Fin 0) 5%Z eq_refl).
Defined.

(** C7, as the specification states it, fails: on a sweep where the solver
    reports no convergence (flag 5), [calculate_radius] returns a centre and
    a radius, and no [ConvergenceError]. *)
Lemma calculate_radius_no_convergence_error :
  converged 5 = false
  /\ exhausted_solver (f_2 [Fin 1; Fin 2; Fin 3] [Fin 0; Fin 1; Fin 0])
       (np_mean [Fin 1; Fin 2; Fin 3], Fin 0)
     = Ok ((np_mean [Fin 1; Fin 2; Fin 3], Fin 0), 5%Z)
  /\ (exists R c,
         calculate_radius exhausted_solver
           [Fin 1; Fin 2; Fin 3] [Fin 0; Fin 1; Fin 0] = Ok (R, c))
  /\ calculate_radius exhausted_solver [Fin 1; Fin 2; Fin 3] [Fin 0; Fin 1; Fin 0]
     <> Raise ConvergenceError.
Proof.
  split; [reflexivity | split; [reflexivity | split]].
  - eexists. eexists. rewrite calculate_radius_unfold. reflexivity.
  - rewrite calculate_radius_unfold. discriminate.
Qed.

(** ** Parsing *)

Lemma getitem_Ok {A : Type} (l : list A) (i : nat) (a : A) :
  getitem l i = Ok a <-> nth_error l i = Some a.
Proof.
  unfold getitem. destruct (nth_error l i); split; intros H;
    try discriminate; now inversion H.
Qed.






(** Splits a failed or successful [bind] into its first step and the rest. *)
Ltac bind_inv H :=
  match type of H with
  | bind ?m _ = _ =>
      let E := fresh "E" in
      destruct m eqn:E; cbn [bind] in H; try discriminate
  end.


Lemma parse_subject_layout (data : list string) (s : Subject) :
  parse_subject data = Ok s <-> subject_layout data s.
Proof.
  unfold parse_subject, subject_layout, field_of. split.
  - intros H. repeat bind_inv H. inversion H; subst s; cbn [height weight age sex].
    repeat match goal with
           | E : getitem _ _ = Ok _ |- _ => apply getitem_Ok in E
           end.
    do 7 eexists. repeat split; eassumption.
  - intros (l2 & l3 & l4 & l5 & t2 & t3 & t4 & H).
    destruct H as (H2 & F2 & P2 & H3 & F3 & P3 & H4 & F4 & P4 & H5 & F5).
    apply getitem_Ok in H2, F2, H3, F3, H4, F4, H5, F5.
    rewrite H2. cbn [bind]. rewrite F2. cbn [bind]. rewrite P2. cbn [bind].
    rewrite H3. cbn [bind]. rewrite F3. cbn [bind]. rewrite P3. cbn [bind].
    rewrite H4. cbn [bind]. rewrite F4. cbn [bind]. rewrite P4. cbn [bind].
    rewrite H5. cbn [bind]. rewrite F5. cbn [bind].
    destruct s; reflexivity.
Qed.




(** The two lists grow together. *)
Lemma get_freq_react_loop_length (rows : list (list string)) :
  forall f0 x0 fs xs,
    get_freq_react_loop rows f0 x0 = Ok (fs, xs) ->
    length f0 = length x0 -> length fs = length xs.
Proof.
  induction rows as [| row rows IH]; intros f0 x0 fs xs H Hlen;
    cbn [get_freq_react_loop] in H.
  - inversion H; subst. exact Hlen.
  - repeat bind_inv H. eapply IH; [exact H |].
    rewrite !length_app. cbn. lia.
Qed.

(** The loop reads every row, in order, as a (frequency, reactance) pair. *)
Lemma get_freq_react_loop_reads (rows : list (list string)) :
  forall f0 x0 fs xs,
    get_freq_react_loop rows f0 x0 = Ok (fs, xs)
    <-> exists samples,
          Forall2 row_reads rows samples
          /\ fs = f0 ++ map fst samples /\ xs = x0 ++ map snd samples.
Proof.
  induction rows as [| row rows IH]; intros f0 x0 fs xs;
    cbn [get_freq_react_loop].
  - split.
    + intros H. inversion H; subst. exists []. cbn. rewrite !app_nil_r.
      repeat split. constructor.
    + intros (samples & HF & -> & ->). inversion HF; subst. cbn.
      now rewrite !app_nil_r.
  - split.
    + intros H.
      destruct (getitem row 1) as [t1 |] eqn:H1; cbn [bind] in H; [| discriminate].
      destruct (py_float t1) as [f |] eqn:P1; cbn [bind] in H; [| discriminate].
      destruct (getitem row 2) as [t2 |] eqn:H2; cbn [bind] in H; [| discriminate].
      destruct (py_float t2) as [x |] eqn:P2; cbn [bind] in H; [| discriminate].
      apply IH in H. destruct H as (samples & HF & -> & ->).
      apply getitem_Ok in H1, H2.
      exists ((f, x) :: samples). repeat split.
      * constructor; [| exact HF]. exists t1, t2. cbn [fst snd]. auto.
      * cbn [map fst]. now rewrite <- app_assoc.
      * cbn [map snd]. now rewrite <- app_assoc.
    + intros (samples & HF & -> & ->).
      inversion HF as [| r [f x] rs ss (t1 & t2 & H1 & P1 & H2 & P2) HF']; subst.
      cbn [fst snd] in P1, P2. apply getitem_Ok in H1, H2.
      rewrite H1. cbn [bind]. rewrite P1. cbn [bind].
      rewrite H2. cbn [bind]. rewrite P2. cbn [bind].
      apply IH. exists ss. repeat split; [exact HF' | |];
        cbn [map fst snd]; now rewrite <- app_assoc.
Qed.

(** [data[13:-1]]: the lines from index 13 on, without the last one. *)
Lemma py_slice_13_last {A : Type} (data : list A) :
  py_slice data 13 (-1) = firstn (length data - 14) (skipn 13 data).
Proof.
  unfold py_slice, slice_index.
  change ((13 <? 0)%Z) with false. change ((-1 <? 0)%Z) with true. cbv iota.
  replace (Z.to_nat (Z.max 0 (-1 + Z.of_nat (length data)))) with (length data - 1)%nat by lia.
  change (Z.to_nat 13) with 13%nat.
  destruct (Nat.le_gt_cases 13 (length data)) as [Hge | Hlt].
  - rewrite Nat.min_l by exact Hge. f_equal. lia.
  - rewrite Nat.min_r by lia.
    rewrite !skipn_all2 by lia. now rewrite !firstn_nil.
Qed.


(** Row [i] of the sweep is line [13 + i] of the file, cut at the commas;
    the last line of the file is no row. *)
Lemma extract_impedance_data_rows (data : list string) (i : nat) (row : list string) :
  nth_error (extract_impedance_data data) i = Some row
  <-> (13 + i < length data - 1)%nat
      /\ exists line, nth_error data (13 + i) = Some line /\ row = split "," line.
Proof.
  unfold extract_impedance_data.
  rewrite py_slice_13_last, nth_error_map, nth_error_firstn, nth_error_skipn.
  destruct (Nat.ltb_spec i (length data - 14)) as [Hlt | Hge].
  - destruct (nth_error data (13 + i)) as [line |] eqn:Hl; cbn [option_map].
    + split.
      * intros H. inversion H; subst. split; [lia |]. now exists line.
      * intros (_ & line' & Hl' & ->). now inversion Hl'.
    + split; [discriminate |]. intros (_ & line' & Hl' & _). discriminate.
  - cbn [option_map]. split; [discriminate |]. intros (Hlt & _). lia.
Qed.

Lemma decimal_0 (m : Z) : decimal m 0 = IZR m.
Proof. unfold decimal. cbn [powerRZ]. ring. Qed.

(** C5, as the code has it.  Height, weight, age and sex are field 1 of the
    lines 2, 3, 4 and 5, each line cut at every single space (height and
    weight read by [float], age by [int]); the sample rows are the lines
    from index 13 up to but excluding the last line, cut at the commas, and
    the sweep pairs [float] of field 1 with [float] of field 2 of each row,
    in order. *)
Theorem parse_layout (data : list string) :
  (forall s, parse_subject data = Ok s <-> subject_layout data s)
  /\ (forall i row,
         nth_error (extract_impedance_data data) i = Some row
         <-> (13 + i < length data - 1)%nat
             /\ exists line,
                 nth_error data (13 + i) = Some line /\ row = split "," line)
  /\ (forall fs xs,
         get_freq_react_data (extract_impedance_data data) = Ok (fs, xs)
         <-> exists samples,
               Forall2 row_reads (extract_impedance_data data) samples
               /\ fs = map fst samples /\ xs = map snd samples).
Proof.
  split; [| split].
  - intros s. apply parse_subject_layout.
  - intros i row. apply extract_impedance_data_rows.
  - intros fs xs. unfold get_freq_react_data.
    rewrite get_freq_react_loop_reads. reflexivity.
Qed.

(** C5, as the specification states it, fails: with two spaces after the
    label, the second whitespace-separated token of line 2 is the height,
    but the code reads the empty field between the spaces and [float]
    rejects it. *)
Lemma parse_subject_not_whitespace_tokens :
  nth_error file_two_spaces 2 = Some "Wzrost  170"%string
  /\ second_token "Wzrost  170" = Some "170"%string
  /\ py_float "170" = Ok (Fin (decimal 170 0))
  /\ field_of " " "Wzrost  170" 1 = Some ""%string
  /\ parse_subject file_two_spaces = Raise (ValueError "").
Proof.
  repeat split; reflexivity.
Qed.

(** The loop over a concatenation: the lists built on the first part are
    carried into the second. *)
Lemma get_freq_react_loop_app (pre rest : list (list string)) :
  forall f0 x0,
    get_freq_react_loop (pre ++ rest) f0 x0
    = ('(f1, x1) <- get_freq_react_loop pre f0 x0;;
       get_freq_react_loop rest f1 x1).
Proof.
  induction pre as [| row pre IH]; intros f0 x0; [reflexivity |].
  cbn [app get_freq_react_loop].
  destruct (getitem row 1) as [t1 |]; [| reflexivity]. cbn [bind].
  destruct (py_float t1) as [f |]; [| reflexivity]. cbn [bind].
  destruct (getitem row 2) as [t2 |]; [| reflexivity]. cbn [bind].
  destruct (py_float t2) as [x |]; [| reflexivity]. cbn [bind].
  apply IH.
Qed.

Lemma row_reads_length (row : list string) (sample : float64 * float64) :
  row_reads row sample -> (3 <= length row)%nat.
Proof.
  intros (t1 & t2 & _ & _ & H2 & _).
  assert (H : nth_error row 2 <> None) by (rewrite H2; discriminate).
  apply nth_error_Some in H. lia.
Qed.

(** C10.  Parsing succeeds only if every sample row has at least three
    comma-separated fields: a row of two fields, even one that holds a
    frequency and a reactance, makes [get_freq_react_data] fail with an
    out-of-range index instead of being read as a pair. *)
Theorem sample_rows_need_three_fields (rows : list (list string)) :
  (forall fs xs,
      get_freq_react_data rows = Ok (fs, xs) ->
      Forall (fun row => (3 <= length row)%nat) rows)
  /\ (forall pre t0 t1 post f,
         rows = pre ++ [t0; t1] :: post ->
         (exists r, get_freq_react_data pre = Ok r) ->
         py_float t1 = Ok f ->
         get_freq_react_data rows = Raise IndexError).
Proof.
  split.
  - intros fs xs H. unfold get_freq_react_data in H.
    apply get_freq_react_loop_reads in H. destruct H as (samples & HF & _).
    induction HF as [| row sample rows' samples' Hrow _ IH]; constructor.
    + eapply row_reads_length. exact Hrow.
    + exact IH.
  - intros pre t0 t1 post f -> [[f1 x1] Hpre] Hf.
    unfold get_freq_react_data in *.
    rewrite get_freq_react_loop_app, Hpre. cbn [bind get_freq_react_loop getitem nth_error].
    rewrite Hf. reflexivity.
Qed.

Lemma sample_rows_need_three_fields_witness :
  extract_impedance_data (mfu_file "Wzrost 170" ["1,50,-30"; "60,-20"]%string)
  = [["1"; "50"; "-30"]; ["60"; "-20"]]%string
  /\ get_freq_react_data [["1"; "50"; "-30"]; ["60"; "-20"]]%string
     = Raise IndexError.
Proof.
  split; [reflexivity |].
  refine (proj2 (sample_rows_need_three_fields _)
            [["1"; "50"; "-30"]]%string "60"%string "-20"%string []
            (Fin (decimal (-20) 0)) eq_refl _ eq_refl).
  eexists. reflexivity.
Defined.

(** ** Failures of parsing *)






Lemma bmi_170_70 :
  calculate_bmi (Fin (decimal 170 0)) (Fin (decimal 70 0))
  = Ok (Fin (Spec.BMI (decimal 170 0) (decimal 70 0))).
Proof.
  apply calculate_bmi_fin. rewrite decimal_0. lra.
Qed.



(** ** The entry point *)

(** The summary has its eleven lines in the order height, weight, age, sex,
    BMI, Re, Ri, FFM, ECW, ICW, TBW; every label fills a column of 25
    characters, and every value but the sex is printed with three
    decimals. *)
Lemma print_summary_layout (o : BIAnalysis) :
  map snd (print_summary o)
  = [ Fixed3 (height (subject (parsed o))); Fixed3 (weight (subject (parsed o)));
      Fixed3 (of_int (age (subject (parsed o)))); Text (sex (subject (parsed o)));
      Fixed3 (bmi (parsed o)); Fixed3 (re o); Fixed3 (ri o); Fixed3 (ffm o);
      Fixed3 (ecw o); Fixed3 (icw o); Fixed3 (tbw o) ]
  /\ Forall (fun line => String.length (fst line) = 25%nat) (print_summary o).
Proof.
  split; [reflexivity |]. unfold print_summary.
  repeat constructor.
Qed.

(** A path with exactly one dot: the check of [main.py] is the check of the
    extension. *)
Lemma main_one_dot (isfile : string -> bool) (path stem ext : string) :
  split "." path = [stem; ext] ->
  main isfile path
  = Ok (if (isfile path && String.eqb ext "mfu")%bool then Analyse path
        else PrintError error_message).
Proof.
  intros Hs. unfold main. destruct (isfile path); cbn [negb andb]; [| reflexivity].
  rewrite Hs. cbn [getitem nth_error bind].
  destruct (String.eqb ext "mfu"); reflexivity.
Qed.

(** C9 fails on the code: [main.py] compares the text between the first and
    the second dot of the path with [mfu], not the extension.  An existing
    [.mfu] file in the current directory, named with a leading [./], is
    turned away with the error message; an existing file whose name only
    has [mfu] after its first dot is analysed; an existing file without a
    dot ends the program in an [IndexError], with no message. *)
Theorem main_extension_check :
  main (fun _ => true) "./sweep.mfu" = Ok (PrintError error_message)
  /\ main (fun _ => true) "sweep.mfu.txt" = Ok (Analyse "sweep.mfu.txt")
  /\ main (fun _ => true) "sweep" = Raise IndexError
  /\ main (fun _ => true) "sweep.mfu" = Ok (Analyse "sweep.mfu")
  /\ main (fun _ => false) "sweep.mfu" = Ok (PrintError error_message).
Proof.
  repeat split; reflexivity.
Qed.

(** ** Reading the file *)

Lemma split_nonempty (sep : ascii) (s : string) : split sep s <> [].
Proof.
  destruct s as [| c s]; cbn [split]; [discriminate |].
  destruct (Ascii.eqb c sep); [discriminate |].
  destruct (split sep s); discriminate.
Qed.

Lemma join_split (sep : ascii) (s : string) : join sep (split sep s) = s.
Proof.
  induction s as [| c s IH]; [reflexivity |]. cbn [split].
  destruct (Ascii.eqb_spec c sep) as [-> | Hne].
  - pose proof (split_nonempty sep s) as Hn.
    destruct (split sep s) as [| w ws] eqn:Hs; [contradiction |].
    cbn [join] in *. cbn [append]. now rewrite IH.
  - pose proof (split_nonempty sep s) as Hn.
    destruct (split sep s) as [| w ws] eqn:Hs; [contradiction |].
    cbn [join] in *. destruct ws as [| w' ws].
    + now rewrite IH.
    + cbn [append]. now rewrite IH.
Qed.

Lemma split_lacks (sep : ascii) (s : string) : Forall (lacks sep) (split sep s).
Proof.
  induction s as [| c s IH]; cbn [split].
  - repeat constructor.
  - destruct (Ascii.eqb_spec c sep) as [-> | Hne].
    + constructor; [exact I | exact IH].
    + destruct (split sep s) as [| w ws].
      * repeat constructor. exact Hne.
      * inversion IH; subst. constructor; [| assumption].
        split; assumption.
Qed.

Lemma split_length (sep : ascii) (s : string) :
  length (split sep s) = S (occurrences sep s).
Proof.
  induction s as [| c s IH]; [reflexivity |]. cbn [split occurrences].
  destruct (Ascii.eqb c sep).
  - cbn [length]. rewrite IH. reflexivity.
  - pose proof (split_nonempty sep s) as Hn.
    destruct (split sep s) as [| w ws]; [contradiction |].
    cbn [length] in *. exact IH.
Qed.

Lemma split_app_sep (sep : ascii) (s t : string) :
  split sep (s ++ String sep t) = split sep s ++ split sep t.
Proof.
  induction s as [| c s IH].
  - cbn [append split app]. now rewrite Ascii.eqb_refl.
  - cbn [append split]. rewrite IH.
    destruct (Ascii.eqb c sep).
    + reflexivity.
    + pose proof (split_nonempty sep s) as Hn.
      destruct (split sep s) as [| w ws]; [contradiction | reflexivity].
Qed.

Lemma lacks_app (c : ascii) (s t : string) :
  lacks c s -> lacks c t -> lacks c (s ++ t).
Proof.
  induction s as [| c' s IH]; cbn [append lacks]; [tauto |].
  intros [Hc Hs] Ht. split; [exact Hc | apply IH; assumption].
Qed.

Lemma split_whole (sep : ascii) (w : string) : lacks sep w -> split sep w = [w].
Proof.
  induction w as [| c w IH]; cbn [lacks split]; [reflexivity |].
  intros [Hc Hw]. destruct (Ascii.eqb_spec c sep) as [-> | _]; [contradiction |].
  now rewrite (IH Hw).
Qed.

Lemma split_first (sep : ascii) (w t : string) :
  lacks sep w -> split sep (w ++ String sep t) = w :: split sep t.
Proof.
  intros Hw. rewrite split_app_sep, (split_whole sep w Hw). reflexivity.
Qed.

(** Cutting what [join] has put together gives the pieces back. *)
Lemma split_join (sep : ascii) (lines : list string) :
  lines <> [] -> Forall (lacks sep) lines -> split sep (join sep lines) = lines.
Proof.
  induction lines as [| w lines IH]; [contradiction |]. intros _ Hall.
  inversion Hall as [| ? ? Hw Hrest]; subst.
  destruct lines as [| w' lines].
  - cbn [join]. apply split_whole. exact Hw.
  - change (join sep (w :: w' :: lines))
      with (w ++ String sep (join sep (w' :: lines)))%string.
    rewrite (split_first sep w _ Hw), IH; [reflexivity | discriminate | exact Hrest].
Qed.

Lemma split_keeps_lacks (c sep : ascii) (s : string) :
  lacks c s -> Forall (lacks c) (split sep s).
Proof.
  induction s as [| c' s IH]; cbn [lacks split].
  - intros _. repeat constructor.
  - intros [Hc Hs]. specialize (IH Hs).
    destruct (Ascii.eqb c' sep).
    + constructor; [exact I | exact IH].
    + destruct (split sep s) as [| w ws].
      * repeat constructor. exact Hc.
      * inversion IH; subst. constructor; [split; assumption | assumption].
Qed.

Lemma newline_not_carriage_return : newline <> carriage_return.
Proof. discriminate. Qed.

(** No carriage return is left after the translation of the line ends. *)
Lemma universal_newlines_lacks (n : nat) :
  forall s, (String.length s <= n)%nat ->
            lacks carriage_return (universal_newlines s).
Proof.
  induction n as [| n IH]; intros s Hlen.
  - destruct s; [exact I | cbn in Hlen; lia].
  - destruct s as [| c s]; [exact I |]. cbn [String.length] in Hlen.
    cbn [universal_newlines].
    destruct (Ascii.eqb_spec c carriage_return) as [-> | Hc].
    + destruct s as [| c' s].
      * split; [exact newline_not_carriage_return | exact I].
      * cbn [String.length] in Hlen.
        destruct (Ascii.eqb c' newline);
          (split; [exact newline_not_carriage_return | apply IH; cbn; lia]).
    + split; [exact Hc | apply IH; lia].
Qed.

(** A text without carriage returns is left as it is. *)
Lemma universal_newlines_id (s : string) :
  lacks carriage_return s -> universal_newlines s = s.
Proof.
  induction s as [| c s IH]; cbn [lacks universal_newlines]; [reflexivity |].
  intros [Hc Hs]. destruct (Ascii.eqb_spec c carriage_return) as [-> | _];
    [contradiction |].
  now rewrite (IH Hs).
Qed.

Lemma universal_newlines_crlf (w t : string) :
  lacks carriage_return w ->
  universal_newlines (w ++ crlf ++ t) = (w ++ String newline (universal_newlines t))%string.
Proof.
  induction w as [| c w IH]; cbn [lacks append].
  - intros _. reflexivity.
  - intros [Hc Hw]. cbn [universal_newlines].
    destruct (Ascii.eqb_spec c carriage_return) as [-> | _]; [contradiction |].
    now rewrite (IH Hw).
Qed.

Lemma universal_newlines_join_crlf (lines : list string) :
  Forall (lacks carriage_return) lines ->
  universal_newlines (join_str crlf lines) = join newline lines.
Proof.
  induction lines as [| w lines IH]; [reflexivity |]. intros Hall.
  inversion Hall as [| ? ? Hw Hrest]; subst.
  destruct lines as [| w' lines].
  - cbn [join_str join]. apply universal_newlines_id. exact Hw.
  - change (join_str crlf (w :: w' :: lines))
      with (w ++ crlf ++ join_str crlf (w' :: lines))%string.
    rewrite (universal_newlines_crlf w _ Hw), (IH Hrest). reflexivity.
Qed.

Lemma join_lacks (c sep : ascii) (lines : list string) :
  sep <> c -> Forall (lacks c) lines -> lacks c (join sep lines).
Proof.
  intros Hsep. induction lines as [| w lines IH]; [intros _; exact I |].
  intros Hall. inversion Hall as [| ? ? Hw Hrest]; subst.
  destruct lines as [| w' lines]; [exact Hw |].
  change (join sep (w :: w' :: lines))
    with (w ++ String sep (join sep (w' :: lines)))%string.
  apply lacks_app; [exact Hw |]. split; [exact Hsep | apply IH; exact Hrest].
Qed.

(** X1.  [read_file] returns lines that hold neither a newline nor a
    carriage return, whatever the file; and lines written out with [\n] or
    with [\r\n] between them are read back as they were, the two kinds of
    file giving the same lines. *)
Theorem read_file_lines (content : string) :
  Forall (fun line => lacks newline line /\ lacks carriage_return line)
    (read_file content)
  /\ (forall lines : list string,
         lines <> [] ->
         Forall (fun line => lacks newline line /\ lacks carriage_return line) lines ->
         read_file (join newline lines) = lines
         /\ read_file (join_str crlf lines) = lines).
Proof.
  unfold read_file. split.
  - apply Forall_forall. intros line Hin. split.
    + pose proof (split_lacks newline (universal_newlines content)) as H.
      rewrite Forall_forall in H. exact (H line Hin).
    + pose proof (split_keeps_lacks carriage_return newline
                    (universal_newlines content)
                    (universal_newlines_lacks _ _ (Nat.le_refl _))) as H.
      rewrite Forall_forall in H. exact (H line Hin).
  - intros lines Hne Hall.
    assert (Hnl : Forall (lacks newline) lines).
    { eapply Forall_impl; [| exact Hall]. intros l [H _]. exact H. }
    assert (Hcr : Forall (lacks carriage_return) lines).
    { eapply Forall_impl; [| exact Hall]. intros l [_ H]. exact H. }
    split.
    + rewrite universal_newlines_id
        by (apply join_lacks; [exact newline_not_carriage_return | exact Hcr]).
      apply split_join; assumption.
    + rewrite (universal_newlines_join_crlf lines Hcr).
      apply split_join; assumption.
Qed.

Lemma read_file_lines_witness :
  read_file (join newline ["MFU"; "Wzrost 170"; ""]%string)
  = ["MFU"; "Wzrost 170"; ""]%string
  /\ read_file (join_str crlf ["MFU"; "Wzrost 170"; ""]%string)
     = ["MFU"; "Wzrost 170"; ""]%string.
Proof.
  refine (proj2 (read_file_lines EmptyString) ["MFU"; "Wzrost 170"; ""]%string _ _).
  - discriminate.
  - repeat constructor; discriminate.
Defined.

(** ** What the parser looks at *)

Lemma extract_impedance_data_length (data : list string) :
  length (extract_impedance_data data) = (length data - 14)%nat.
Proof.
  unfold extract_impedance_data.
  rewrite length_map, py_slice_13_last, length_firstn, length_skipn. lia.
Qed.

(** X2.  The sample rows are the lines between the thirteen heading lines
    and the last line, cut at the commas.  The last line is dropped whatever
    it holds: a file that does not end in a newline loses its last sample. *)
Theorem extract_impedance_data_frame (header rows : list string) (last : string) :
  length header = 13%nat ->
  extract_impedance_data (header ++ rows ++ [last]) = map (split ",") rows
  /\ length (extract_impedance_data (header ++ rows ++ [last])) = length rows.
Proof.
  intros Hh.
  assert (H : extract_impedance_data (header ++ rows ++ [last])
              = map (split ",") rows).
  { unfold extract_impedance_data. rewrite py_slice_13_last.
    rewrite !length_app. cbn [length].
    replace (length header + (length rows + 1) - 14)%nat with (length rows) by lia.
    rewrite <- Hh, skipn_app, skipn_all, Nat.sub_diag. cbn [skipn app].
    rewrite firstn_app, firstn_all, Nat.sub_diag. cbn [firstn].
    now rewrite app_nil_r. }
  split; [exact H |]. rewrite H. apply length_map.
Qed.

Lemma extract_impedance_data_frame_witness :
  extract_impedance_data
    ((metadata_lines "Wzrost 170" ++ repeat EmptyString 7)
     ++ ["1,50,-30"; "2,60,-20"]%string ++ ["3,70,-30"%string])
  = [["1"; "50"; "-30"]; ["2"; "60"; "-20"]]%string.
Proof.
  exact (proj1 (extract_impedance_data_frame
                  (metadata_lines "Wzrost 170" ++ repeat EmptyString 7)
                  ["1,50,-30"; "2,60,-20"]%string "3,70,-30"%string eq_refl)).
Defined.

(** X3.  The metadata depend on the lines 2 to 5 only: two files that agree
    on these four lines give the same subject, or the same failure. *)
Theorem parse_subject_frame (data data' : list string) :
  (forall i, (2 <= i <= 5)%nat -> nth_error data i = nth_error data' i) ->
  parse_subject data = parse_subject data'.
Proof.
  intros H. unfold parse_subject, getitem.
  rewrite <- (H 2%nat), <- (H 3%nat), <- (H 4%nat), <- (H 5%nat) by lia.
  reflexivity.
Qed.

Lemma parse_subject_frame_witness :
  parse_subject (mfu_file "Wzrost 170" three_rows) = parse_subject file_short.
Proof.
  apply parse_subject_frame. intros i Hi.
  destruct i as [| [| [| [| [| [| i]]]]]]; try lia; reflexivity.
Defined.

(** The loop adds one frequency and one reactance for every row. *)
Lemma get_freq_react_loop_count (rows : list (list string)) :
  forall f0 x0 fs xs,
    get_freq_react_loop rows f0 x0 = Ok (fs, xs) ->
    length fs = (length f0 + length rows)%nat
    /\ length xs = (length x0 + length rows)%nat.
Proof.
  intros f0 x0 fs xs H. apply get_freq_react_loop_reads in H.
  destruct H as (samples & HF & -> & ->).
  apply Forall2_length in HF.
  rewrite !length_app, !length_map. lia.
Qed.

(** X4.  When [get_freq_react_data] returns, the two lists have one entry
    for every row: [freq] and [react] have the same length, the number of
    sample rows. *)
Theorem get_freq_react_data_lengths (rows : list (list string))
    (fs xs : list float64) :
  get_freq_react_data rows = Ok (fs, xs) ->
  length fs = length rows /\ length xs = length rows /\ length fs = length xs.
Proof.
  intros H. unfold get_freq_react_data in H.
  apply get_freq_react_loop_count in H. cbn [length] in H. lia.
Qed.

Lemma get_freq_react_data_lengths_witness :
  length [Fin (decimal 50 0); Fin (decimal 60 0)] = 2%nat
  /\ length [Fin (decimal (-30) 0); Fin (decimal (-20) 0)] = 2%nat
  /\ length [Fin (decimal 50 0); Fin (decimal 60 0)]
     = length [Fin (decimal (-30) 0); Fin (decimal (-20) 0)].
Proof.
  exact (get_freq_react_data_lengths
           [["1"; "50"; "-30"]; ["2"; "60"; "-20"]]%string _ _ eq_refl).
Defined.

Lemma get_freq_react_loop_fields (rows rows' : list (list string)) :
  Forall2 (fun row row' =>
             nth_error row 1 = nth_error row' 1
             /\ nth_error row 2 = nth_error row' 2) rows rows' ->
  forall f0 x0,
    get_freq_react_loop rows f0 x0 = get_freq_react_loop rows' f0 x0.
Proof.
  induction 1 as [| row row' rows rows' [H1 H2] _ IH]; intros f0 x0;
    [reflexivity |].
  cbn [get_freq_react_loop]. unfold getitem. rewrite H1, H2.
  destruct (nth_error row' 1) as [t1 |]; [| reflexivity]. cbn [bind].
  destruct (py_float t1) as [f |]; [| reflexivity]. cbn [bind].
  destruct (nth_error row' 2) as [t2 |]; [| reflexivity]. cbn [bind].
  destruct (py_float t2) as [x |]; [| reflexivity]. cbn [bind].
  apply IH.
Qed.

(** X5.  Of a sample row only the fields 1 and 2 are read: the leading
    field and whatever follows the reactance change nothing, neither the
    sweep nor the failure. *)
Theorem get_freq_react_data_fields (rows rows' : list (list string)) :
  Forall2 (fun row row' =>
             nth_error row 1 = nth_error row' 1
             /\ nth_error row 2 = nth_error row' 2) rows rows' ->
  get_freq_react_data rows = get_freq_react_data rows'.
Proof.
  intros H. unfold get_freq_react_data.
  apply get_freq_react_loop_fields. exact H.
Qed.

Lemma get_freq_react_data_fields_witness :
  get_freq_react_data [["1"; "50"; "-30"]; ["2"; "60"; "-20"; "9"]]%string
  = get_freq_react_data [["x"; "50"; "-30"; "y"]; [""; "60"; "-20"]]%string.
Proof.
  apply get_freq_react_data_fields.
  repeat constructor.
Defined.

(** X6.  The loop stops at the first row it cannot read: when the rows
    before it are read and the row alone fails, the whole sweep fails the
    same way, whatever rows follow. *)
Theorem get_freq_react_data_first_failure
    (pre post : list (list string)) (row : list string) (e : exn) :
  (exists r, get_freq_react_data pre = Ok r) ->
  get_freq_react_data [row] = Raise e ->
  get_freq_react_data (pre ++ row :: post) = Raise e.
Proof.
  intros [[f1 x1] Hpre] Hrow. unfold get_freq_react_data in *.
  rewrite get_freq_react_loop_app, Hpre. cbn [bind get_freq_react_loop] in *.
  destruct (getitem row 1) as [t1 |]; [| exact Hrow]. cbn [bind] in *.
  destruct (py_float t1) as [f |]; [| exact Hrow]. cbn [bind] in *.
  destruct (getitem row 2) as [t2 |]; [| exact Hrow]. cbn [bind] in *.
  destruct (py_float t2) as [x |]; [| exact Hrow]. cbn [bind] in *.
  discriminate.
Qed.

Lemma get_freq_react_data_first_failure_witness :
  get_freq_react_data
    [["1"; "50"; "-30"]; ["2"; "6o"; "-20"]; ["3"]]%string
  = Raise (ValueError "6o").
Proof.
  refine (get_freq_react_data_first_failure
            [["1"; "50"; "-30"]]%string [["3"]]%string
            ["2"; "6o"; "-20"]%string (ValueError "6o") _ eq_refl).
  eexists. reflexivity.
Defined.

(** ** Division by zero, empty sweeps and negative resistances *)

Lemma fsquare_fneg (v : float64) : fsquare (fneg v) = fsquare v.
Proof.
  destruct v as [x | | |]; try reflexivity.
  unfold fsquare, fneg, fmul. f_equal. ring.
Qed.

Lemma np_div_fneg_100 (h : float64) :
  np_div (fneg h) (Fin 100) = fneg (np_div h (Fin 100)).
Proof.
  destruct h as [x | | |]; cbn [fneg np_div].
  - destruct (Req_dec_T 100 0); [lra |]. cbn [fneg]. f_equal. field.
  - destruct (Rlt_dec 100 0); [lra | reflexivity].
  - destruct (Rlt_dec 100 0); [lra | reflexivity].
  - reflexivity.
Qed.

Lemma calculate_bmi_zero (w : float64) :
  calculate_bmi (Fin 0) w = Raise ZeroDivisionError.
Proof.
  unfold calculate_bmi, of_int.
  rewrite py_div_fin by lra. cbn [bind fsquare fmul].
  replace (0 / 100 * (0 / 100)) with 0 by (field; lra).
  apply py_div_zero.
Qed.

(** X7.  [calculate_bmi] does not look at the sign of the height: a negative
    height gives what the positive one gives, value or exception; and a
    height of zero raises [ZeroDivisionError], whatever the weight. *)
Theorem calculate_bmi_unchecked_height (h w : float64) :
  calculate_bmi (fneg h) w = calculate_bmi h w
  /\ calculate_bmi (Fin 0) w = Raise ZeroDivisionError.
Proof.
  unfold calculate_bmi, of_int. split.
  - unfold py_div at 1 3. destruct (Req_dec_T 100 0); [lra |]. cbn [bind].
    now rewrite np_div_fneg_100, fsquare_fneg.
  - fold (calculate_bmi (Fin 0) w). apply calculate_bmi_zero.
Qed.

Lemma py_div_Ok (u v : float64) : v <> Fin 0 -> exists q, py_div u v = Ok q.
Proof.
  intros Hv. unfold py_div. destruct v as [y | | |]; try (eexists; reflexivity).
  destruct (Req_dec_T y 0) as [-> | Hy]; [contradiction | eexists; reflexivity].
Qed.

Lemma float64_zero_dec (v : float64) : {v = Fin 0} + {v <> Fin 0}.
Proof.
  destruct v as [y | | |]; try (right; discriminate).
  destruct (Req_dec_T y 0) as [-> | Hy]; [left; reflexivity |].
  right. intros H. inversion H. contradiction.
Qed.

(** The loop of [calculate_ffm] on arrays of one length, from index [k] on:
    it ends well unless one of the frequencies left is zero. *)
Lemma ffm_loop_total (h w : float64) (a : Z) (fs xs : list float64) :
  length xs = length fs ->
  forall (n k : nat) (acc : list float64),
    (k + n = length fs)%nat ->
    (In (Fin 0) (skipn k fs) ->
     ffm_loop h w a fs xs (seq k n) acc = Raise ZeroDivisionError)
    /\ (~ In (Fin 0) (skipn k fs) ->
        exists F, ffm_loop h w a fs xs (seq k n) acc = Ok F).
Proof.
  intros Hlen. induction n as [| n IH]; intros k acc Hk.
  - rewrite skipn_all2 by lia. split; [intros [] | intros _; now exists acc].
  - destruct (nth_error fs k) as [fi |] eqn:Hf.
    2: { apply nth_error_None in Hf. lia. }
    destruct (nth_error xs k) as [xi |] eqn:Hx.
    2: { apply nth_error_None in Hx. lia. }
    rewrite (skipn_nth_error _ _ _ Hf). cbn [seq ffm_loop]. unfold getitem.
    rewrite Hf, Hx. cbn [bind].
    destruct (float64_zero_dec fi) as [-> | Hnz].
    + rewrite py_div_zero. cbn [bind]. split; [reflexivity |].
      intros Hnot. exfalso. apply Hnot. now left.
    + destruct (py_div_Ok (fmul (Fin 0.7374) (fsquare h)) fi Hnz) as [q Hq].
      rewrite Hq. cbn [bind].
      destruct (IH (S k)
                  (acc ++ [fsub (fadd (fsub (fadd q (fmul (Fin 0.1763) w))
                                         (fmul (Fin 0.1773) (of_int a)))
                                   (fmul (Fin 0.1198) xi)) (Fin 2.4658)]))
        as [IH1 IH2]; [lia |].
      split.
      * intros [Heq | Hin]; [congruence | exact (IH1 Hin)].
      * intros Hnot. apply IH2. intros Hin. apply Hnot. now right.
Qed.

Lemma calculate_ffm_total (h w : float64) (a : Z) (fs xs : list float64) :
  length xs = length fs ->
  (In (Fin 0) fs -> calculate_ffm h w a fs xs = Raise ZeroDivisionError)
  /\ (~ In (Fin 0) fs -> exists m, calculate_ffm h w a fs xs = Ok m).
Proof.
  intros Hlen. unfold calculate_ffm.
  destruct (ffm_loop_total h w a fs xs Hlen (length fs) 0 []) as [H1 H2]; [lia |].
  cbn [skipn] in H1, H2. split.
  - intros Hin. now rewrite (H1 Hin).
  - intros Hnot. destruct (H2 Hnot) as [F HF]. rewrite HF. cbn [bind].
    now eexists.
Qed.

(** X8.  [calculate_ffm] divides by every frequency and guards none: a
    sweep with a zero frequency makes it fail instead of returning a value;
    an empty sweep does not fail, and gives [nan], the mean of no values. *)
Theorem calculate_ffm_zero_frequency (h w : float64) (a : Z)
    (fs xs : list float64) :
  (length xs = length fs -> In (Fin 0) fs ->
   exists e, calculate_ffm h w a fs xs = Raise e)
  /\ calculate_ffm h w a [] xs = Ok NaN.
Proof.
  split; [| reflexivity].
  intros Hlen Hin.
  destruct (calculate_ffm_total h w a fs xs Hlen) as [Hz _].
  exists ZeroDivisionError. exact (Hz Hin).
Qed.

Lemma calculate_ffm_zero_frequency_witness :
  exists e,
    calculate_ffm (Fin 170) (Fin 70) 30 [Fin 50; Fin 0; Fin 70]
      [Fin (-30); Fin (-20); Fin (-30)] = Raise e.
Proof.
  refine (proj1 (calculate_ffm_zero_frequency (Fin 170) (Fin 70) 30
                   [Fin 50; Fin 0; Fin 70] [Fin (-30); Fin (-20); Fin (-30)])
            eq_refl _).
  right. left. reflexivity.
Defined.

Lemma np_power_neg (x y : R) : x < 0 -> np_power (Fin x) y = NaN.
Proof.
  intros Hx. unfold np_power. destruct (Rlt_dec x 0); [reflexivity | lra].
Qed.

(** X10.  A negative extracellular resistance is not refused: the base of
    the power is negative, so [ecw] and with it [tbw] are [nan], while [icw]
    is still computed, and nothing is raised. *)
Theorem calculate_body_water_negative_re (h w b Re Ri : R) :
  h <> 0 -> 0 < w -> b <> 0 -> Re < 0 -> 0 < Ri ->
  calculate_body_water (Fin h) (Fin w) (Fin b) (Fin Re) (Fin Ri)
  = Ok (NaN,
        Fin ((5.8758 / b + 0.4194) * Rpower ((h ^ 2 * sqrt w) / Ri) (2 / 3)),
        NaN).
Proof.
  intros Hh Hw Hb HRe HRi. unfold calculate_body_water.
  rewrite !py_div_fin by assumption. cbn [bind fadd fsquare fmul].
  rewrite np_sqrt_fin by lra. cbn [fmul].
  rewrite !np_div_fin by lra.
  assert (Hnum : 0 < h * h * sqrt w).
  { apply Rmult_lt_0_compat; [nra | apply sqrt_lt_R0; exact Hw]. }
  assert (Hneg : h * h * sqrt w / Re < 0).
  { unfold Rdiv. apply Rmult_pos_neg; [exact Hnum |].
    apply Rinv_lt_0_compat. exact HRe. }
  assert (Hpos : 0 < h * h * sqrt w / Ri) by (apply Rdiv_lt_0_compat; assumption).
  rewrite (np_power_neg _ _ Hneg), np_power_pos by exact Hpos. cbn [fmul fadd].
  replace (h * h * sqrt w / Ri) with ((h ^ 2 * sqrt w) / Ri) by (field; lra).
  reflexivity.
Qed.

Lemma calculate_body_water_negative_re_witness :
  calculate_body_water (Fin 170) (Fin 70) (Fin 24) (Fin (-100)) (Fin 50)
  = Ok (NaN,
        Fin ((5.8758 / 24 + 0.4194) * Rpower ((170 ^ 2 * sqrt 70) / 50) (2 / 3)),
        NaN).
Proof.
  apply (calculate_body_water_negative_re 170 70 24 (-100) 50); lra.
Defined.

(** ** Water volumes grow as resistance falls *)

Lemma k_ecw_pos (b : R) : 0 < b -> 0 < Spec.k_ecw b.
Proof.
  intros Hb. unfold Spec.k_ecw.
  assert (0 < 0.188 / b) by (apply Rdiv_lt_0_compat; lra). lra.
Qed.

Lemma k_icw_pos (b : R) : 0 < b -> 0 < Spec.k_icw b.
Proof.
  intros Hb. unfold Spec.k_icw.
  assert (0 < 5.8758 / b) by (apply Rdiv_lt_0_compat; lra). lra.
Qed.

Lemma water_term_pos (h w res : R) :
  0 < h -> 0 < w -> 0 < res -> 0 < Rpower ((h ^ 2 * sqrt w) / res) (2 / 3).
Proof.
  intros _ _ _. unfold Rpower. apply exp_pos.
Qed.

Lemma water_term_decreasing (h w res res' : R) :
  0 < h -> 0 < w -> 0 < res -> res < res' ->
  Rpower ((h ^ 2 * sqrt w) / res') (2 / 3) < Rpower ((h ^ 2 * sqrt w) / res) (2 / 3).
Proof.
  intros Hh Hw Hres Hlt. apply Rlt_Rpower_l; [lra |].
  split; [apply water_base_pos; lra |].
  assert (Hnum : 0 < h ^ 2 * sqrt w).
  { apply Rmult_lt_0_compat; [apply pow_lt; assumption | apply sqrt_lt_R0; assumption]. }
  unfold Rdiv. apply Rmult_lt_compat_l; [exact Hnum |].
  apply Rinv_lt_contravar; [nra | exact Hlt].
Qed.

(** X11.  For a positive height, weight and resistances, with the BMI of
    [calculate_bmi], the three volumes are finite and positive, and a larger
    extracellular resistance gives a smaller [ecw] and a smaller [tbw], the
    [icw] staying the same. *)
Theorem calculate_body_water_monotone (h w Re Re' Ri : R) :
  0 < h -> 0 < w -> 0 < Re -> Re < Re' -> 0 < Ri ->
  exists e e' i : R,
    calculate_body_water (Fin h) (Fin w) (Fin (w / (h / 100) ^ 2)) (Fin Re) (Fin Ri)
    = Ok (Fin e, Fin i, Fin (e + i))
    /\ calculate_body_water (Fin h) (Fin w) (Fin (w / (h / 100) ^ 2)) (Fin Re') (Fin Ri)
       = Ok (Fin e', Fin i, Fin (e' + i))
    /\ 0 < e' < e /\ 0 < i /\ e' + i < e + i.
Proof.
  intros Hh Hw HRe Hlt HRi.
  assert (HRe' : 0 < Re') by lra.
  pose proof (BMI_pos h w Hh Hw) as Hb.
  exists (Spec.ECW h w Re), (Spec.ECW h w Re'), (Spec.ICW h w Ri).
  assert (Hbw : forall res, 0 < res ->
            calculate_body_water (Fin h) (Fin w) (Fin (w / (h / 100) ^ 2))
              (Fin res) (Fin Ri)
            = Ok (Fin (Spec.ECW h w res), Fin (Spec.ICW h w Ri),
                  Fin (Spec.ECW h w res + Spec.ICW h w Ri))).
  { intros res Hres. unfold Spec.BMI in Hb. unfold calculate_body_water.
    rewrite !py_div_fin by lra. cbn [bind fadd fsquare fmul].
    rewrite np_sqrt_fin by lra. cbn [fmul].
    rewrite !np_div_fin by lra.
    replace (h * h * sqrt w / res) with ((h ^ 2 * sqrt w) / res) by (field; lra).
    replace (h * h * sqrt w / Ri) with ((h ^ 2 * sqrt w) / Ri) by (field; lra).
    rewrite !np_power_pos by (apply water_base_pos; assumption).
    reflexivity. }
  assert (He' : 0 < Spec.ECW h w Re').
  { unfold Spec.ECW. apply Rmult_lt_0_compat;
      [apply k_ecw_pos; exact Hb | apply water_term_pos; assumption]. }
  assert (Hi : 0 < Spec.ICW h w Ri).
  { unfold Spec.ICW. apply Rmult_lt_0_compat;
      [apply k_icw_pos; exact Hb | apply water_term_pos; assumption]. }
  assert (Hdec : Spec.ECW h w Re' < Spec.ECW h w Re).
  { unfold Spec.ECW. apply Rmult_lt_compat_l; [apply k_ecw_pos; exact Hb |].
    apply water_term_decreasing; assumption. }
  split; [apply Hbw; exact HRe |]. split; [apply Hbw; exact HRe' |].
  repeat split; lra.
Qed.

Lemma calculate_body_water_monotone_witness :
  exists e e' i : R,
    calculate_body_water (Fin 170) (Fin 70) (Fin (70 / (170 / 100) ^ 2)) (Fin 400) (Fin 900)
    = Ok (Fin e, Fin i, Fin (e + i))
    /\ calculate_body_water (Fin 170) (Fin 70) (Fin (70 / (170 / 100) ^ 2)) (Fin 500) (Fin 900)
       = Ok (Fin e', Fin i, Fin (e' + i))
    /\ 0 < e' < e /\ 0 < i /\ e' + i < e + i.
Proof.
  apply (calculate_body_water_monotone 170 70 400 500 900); lra.
Defined.

(** ** Residuals and circles *)

Lemma sum_map_shift {A : Type} (d : A -> R) (m : R) (l : list A) :
  Spec.sum (map (fun p => d p - m) l) = Spec.sum (map d l) - INR (length l) * m.
Proof.
  induction l as [| p l IH].
  - cbn. ring.
  - cbn [map length]. rewrite S_INR. unfold Spec.sum in *. cbn [fold_right].
    rewrite IH. ring.
Qed.

(** X12.  At every finite candidate centre the residual vector of a
    non-empty sweep has one entry for every sample, and its entries add up
    to zero. *)
Theorem f_2_sums_to_zero (sweep : list (R * R)) (xc yc : R) :
  sweep <> [] ->
  length (f_2 (freq_of sweep) (react_of sweep) (Fin xc, Fin yc)) = length sweep
  /\ np_sum (f_2 (freq_of sweep) (react_of sweep) (Fin xc, Fin yc)) = Fin 0.
Proof.
  intros Hne. rewrite (f_2_fin sweep xc yc Hne). split; [apply length_map |].
  rewrite <- (map_map (Spec.residual sweep xc yc) Fin), np_sum_fin. f_equal.
  unfold Spec.residual. rewrite sum_map_shift. unfold Spec.mean.
  rewrite length_map. field. apply INR_length_neq_0. exact Hne.
Qed.

Lemma f_2_sums_to_zero_witness :
  np_sum (f_2 (freq_of [(1, 0); (2, 1); (3, 0)]) (react_of [(1, 0); (2, 1); (3, 0)])
            (Fin 2, Fin 0))
  = Fin 0.
Proof.
  apply (f_2_sums_to_zero [(1, 0); (2, 1); (3, 0)] 2 0). discriminate.
Defined.

Lemma map_constant {A : Type} (d : A -> R) (r : R) (l : list A) :
  Forall (fun p => d p = r) l -> map d l = repeat r (length l).
Proof.
  induction 1 as [| p l Hp _ IH]; [reflexivity |].
  cbn [map length repeat]. now rewrite Hp, IH.
Qed.

Lemma on_circle_dist (xc yc r : R) (p : R * R) :
  0 <= r -> (fst p - xc) ^ 2 + (snd p - yc) ^ 2 = r ^ 2 -> Spec.dist xc yc p = r.
Proof.
  intros Hr Hp. unfold Spec.dist. rewrite Hp. apply sqrt_pow2. exact Hr.
Qed.

(** X13.  For samples that lie exactly on a circle, the residual vector at
    the centre of that circle is zero throughout, and when the solver
    returns that centre [calculate_radius] returns the radius of the
    circle. *)
Theorem calculate_radius_exact_circle
    (leastsq : (center -> list float64) -> center -> result (center * Z))
    (sweep : list (R * R)) (xc yc r : R) (ier : Z) :
  sweep <> [] -> 0 <= r ->
  Forall (fun p => (fst p - xc) ^ 2 + (snd p - yc) ^ 2 = r ^ 2) sweep ->
  leastsq (f_2 (freq_of sweep) (react_of sweep))
    (np_mean (freq_of sweep), Fin 0) = Ok ((Fin xc, Fin yc), ier) ->
  f_2 (freq_of sweep) (react_of sweep) (Fin xc, Fin yc)
  = repeat (Fin 0) (length sweep)
  /\ calculate_radius leastsq (freq_of sweep) (react_of sweep)
     = Ok (Fin r, (Fin xc, Fin yc)).
Proof.
  intros Hne Hr Hon Hsol.
  assert (Hd : map (Spec.dist xc yc) sweep = repeat r (length sweep)).
  { apply map_constant. eapply Forall_impl; [| exact Hon].
    intros p Hp. apply on_circle_dist; assumption. }
  assert (Hn : (1 <= length sweep)%nat).
  { destruct sweep; [contradiction | cbn; lia]. }
  split.
  - rewrite (f_2_fin sweep xc yc Hne). unfold Spec.residual.
    rewrite Hd, mean_repeat by exact Hn.
    rewrite <- (map_map (fun p => Spec.dist xc yc p - r) Fin).
    rewrite (map_constant (fun p => Spec.dist xc yc p - r) 0).
    + now rewrite map_repeat.
    + eapply Forall_impl; [| exact Hon].
      intros p Hp. cbv beta. rewrite (on_circle_dist xc yc r p Hr Hp). ring.
  - rewrite calculate_radius_unfold, Hsol. cbn [fst snd].
    rewrite calc_R_fin, Hd, np_mean_fin.
    + now rewrite mean_repeat by exact Hn.
    + destruct sweep; [contradiction | discriminate].
Qed.

Lemma calculate_radius_exact_circle_witness :
  calculate_radius (fun _ _ => Ok ((Fin 0, Fin 0), 1%Z))
    (freq_of [(5, 0); (0, 5); (-5, 0)]) (react_of [(5, 0); (0, 5); (-5, 0)])
  = Ok (Fin 5, (Fin 0, Fin 0)).
Proof.
  refine (proj2 (calculate_radius_exact_circle (fun _ _ => Ok ((Fin 0, Fin 0), 1%Z))
                   [(5, 0); (0, 5); (-5, 0)] 0 0 5 1%Z _ _ _ eq_refl)).
  - discriminate.
  - lra.
  - repeat constructor; cbn [fst snd]; ring.
Defined.

Lemma sum_nonneg (l : list R) : Forall (fun x => 0 <= x) l -> 0 <= Spec.sum l.
Proof.
  induction 1 as [| x l Hx _ IH]; unfold Spec.sum in *; cbn [fold_right]; lra.
Qed.

Lemma mean_nonneg (l : list R) : Forall (fun x => 0 <= x) l -> 0 <= Spec.mean l.
Proof.
  intros H. unfold Spec.mean. destruct l as [| x l].
  - cbn. unfold Rdiv. rewrite Rinv_0. lra.
  - apply Rmult_le_pos; [apply sum_nonneg; exact H |].
    apply Rlt_le, Rinv_0_lt_compat, lt_0_INR. cbn. lia.
Qed.

(** X14.  The radius is never negative: for a non-empty sweep of finite
    samples and a finite centre returned by the solver, [calculate_radius]
    returns a finite radius [R >= 0]. *)
Theorem calculate_radius_nonneg
    (leastsq : (center -> list float64) -> center -> result (center * Z))
    (sweep : list (R * R)) (xc yc : R) (ier : Z) :
  sweep <> [] ->
  leastsq (f_2 (freq_of sweep) (react_of sweep))
    (np_mean (freq_of sweep), Fin 0) = Ok ((Fin xc, Fin yc), ier) ->
  exists R : R,
    calculate_radius leastsq (freq_of sweep) (react_of sweep)
    = Ok (Fin R, (Fin xc, Fin yc))
    /\ 0 <= R.
Proof.
  intros Hne Hsol. exists (Spec.mean (map (Spec.dist xc yc) sweep)). split.
  - rewrite calculate_radius_unfold, Hsol. cbn [fst snd].
    rewrite calc_R_fin, np_mean_fin; [reflexivity |].
    destruct sweep; [contradiction | discriminate].
  - apply mean_nonneg. apply Forall_map, Forall_forall.
    intros p _. unfold Spec.dist. apply sqrt_pos.
Qed.

Lemma calculate_radius_nonneg_witness :
  exists R : R,
    calculate_radius exhausted_solver
      (freq_of [(1, 0); (2, 1); (3, 0)]) (react_of [(1, 0); (2, 1); (3, 0)])
    = Ok (Fin R, (Fin (Spec.mean [1; 2; 3]), Fin 0))
    /\ 0 <= R.
Proof.
  refine (calculate_radius_nonneg exhausted_solver [(1, 0); (2, 1); (3, 0)]
            (Spec.mean [1; 2; 3]) 0 5%Z _ _).
  - discriminate.
  - unfold exhausted_solver. rewrite freq_mean_fin by discriminate. reflexivity.
Defined.

(** ** The intercepts of the fitted circle *)

(** X15.  When the circle crosses the axis ([b^2 < r^2]) the two values
    returned are finite; [Re] and the other intercept [x1 = 2a - Re] both
    lie on the circle at reactance zero, [Re] to the right of the centre;
    and unless [Re] is zero, [x1] is the resistance of [Ri] and [Re] in
    parallel, [Ri * Re / (Ri + Re)]. *)
Theorem calculate_resistance_on_circle (a b r : R) :
  b ^ 2 < r ^ 2 ->
  exists Ri Re : R,
    calculate_resistance (Fin a, Fin b) (Fin r) = Ok (Fin Ri, Fin Re)
    /\ (Re - a) ^ 2 + b ^ 2 = r ^ 2
    /\ ((2 * a - Re) - a) ^ 2 + b ^ 2 = r ^ 2
    /\ a < Re
    /\ (Re <> 0 -> Ri * Re / (Ri + Re) = 2 * a - Re).
Proof.
  intros Hlt.
  assert (Hs : 0 < sqrt (r ^ 2 - b ^ 2)) by (apply sqrt_lt_R0; lra).
  assert (Hsq : sqrt (r ^ 2 - b ^ 2) * sqrt (r ^ 2 - b ^ 2) = r ^ 2 - b ^ 2)
    by (apply sqrt_sqrt; lra).
  assert (Hne : Spec.Re a b r - Spec.x1 a b r <> 0).
  { unfold Spec.Re, Spec.x2, Spec.x1. intros H. lra. }
  exists (Spec.Ri a b r), (Spec.Re a b r).
  split.
  { rewrite calculate_resistance_fin by lra.
    rewrite np_div_fin by exact Hne. reflexivity. }
  unfold Spec.Ri, Spec.Re, Spec.x2, Spec.x1 in *.
  set (s := sqrt (r ^ 2 - b ^ 2)) in *.
  repeat split.
  - replace ((a + s - a) ^ 2) with (s * s) by ring. lra.
  - replace ((2 * a - (a + s) - a) ^ 2) with (s * s) by ring. lra.
  - lra.
  - intros HRe. field. split; [exact Hne |].
    replace ((a - s) * (a + s) + (a + s) * (a + s - (a - s)))
      with ((a + s) * (a + s)) by ring.
    intros H. apply Rmult_integral in H. tauto.
Qed.

Lemma calculate_resistance_on_circle_witness :
  exists Ri Re : R,
    calculate_resistance (Fin 50, Fin (-30)) (Fin 60) = Ok (Fin Ri, Fin Re)
    /\ (Re - 50) ^ 2 + (-30) ^ 2 = 60 ^ 2
    /\ ((2 * 50 - Re) - 50) ^ 2 + (-30) ^ 2 = 60 ^ 2
    /\ 50 < Re
    /\ (Re <> 0 -> Ri * Re / (Ri + Re) = 2 * 50 - Re).
Proof.
  apply (calculate_resistance_on_circle 50 (-30) 60). lra.
Defined.

(** X16.  The resistances depend on the radius and on the height of the
    centre through their squares only: a radius of the other sign, or the
    circle mirrored in the axis, gives the same result, for every value,
    infinite and [nan] included. *)
Theorem calculate_resistance_mirror (a b r : float64) :
  calculate_resistance (a, b) (fneg r) = calculate_resistance (a, b) r
  /\ calculate_resistance (a, fneg b) r = calculate_resistance (a, b) r.
Proof.
  unfold calculate_resistance. cbn [fst snd].
  rewrite !fsquare_fneg. split; reflexivity.
Qed.

(** ** The whole of [__init__] *)

Section Init.

Variable leastsq : (center -> list float64) -> center -> result (center * Z).

(** A successful [__init__], stage by stage. *)
Lemma init_Ok (data : list string) (o : BIAnalysis) :
  init leastsq data = Ok o ->
  exists p R c m i e ew iw tw,
    init_parse data = Ok p
    /\ calculate_radius leastsq (freq p) (react p) = Ok (R, c)
    /\ calculate_ffm (height (subject p)) (weight (subject p))
         (age (subject p)) (freq p) (react p) = Ok m
    /\ calculate_resistance c R = Ok (i, e)
    /\ calculate_body_water (height (subject p)) (weight (subject p))
         (bmi p) e i = Ok (ew, iw, tw)
    /\ o = mkBIAnalysis p R c m i e ew iw tw.
Proof.
  unfold init. intros H.
  destruct (init_parse data) as [p |] eqn:Hp; cbn [bind] in H; [| discriminate].
  destruct (calculate_radius leastsq (freq p) (react p)) as [[R c] |] eqn:Hr;
    cbn [bind] in H; [| discriminate].
  destruct (calculate_ffm _ _ _ _ _) as [m |] eqn:Hm; cbn [bind] in H; [| discriminate].
  destruct (calculate_resistance c R) as [[i e] |] eqn:Hres;
    cbn [bind] in H; [| discriminate].
  destruct (calculate_body_water _ _ _ _ _) as [[[ew iw] tw] |] eqn:Hw;
    cbn [bind] in H; [| discriminate].
  inversion H; subst o.
  exists p, R, c, m, i, e, ew, iw, tw. repeat split; assumption.
Qed.

Lemma init_parse_Ok (data : list string) (p : Parsed) :
  init_parse data = Ok p ->
  parse_subject data = Ok (subject p)
  /\ calculate_bmi (height (subject p)) (weight (subject p)) = Ok (bmi p)
  /\ impedance_data p = extract_impedance_data data
  /\ get_freq_react_data (extract_impedance_data data) = Ok (freq p, react p).
Proof.
  unfold init_parse. intros H.
  destruct (parse_subject data) as [s |] eqn:Hs; cbn [bind] in H; [| discriminate].
  destruct (calculate_bmi (height s) (weight s)) as [b |] eqn:Hb;
    cbn [bind] in H; [| discriminate].
  destruct (get_freq_react_data (extract_impedance_data data)) as [[f x] |] eqn:Hf;
    cbn [bind] in H; [| discriminate].
  inversion H; subst p. cbn. repeat split; assumption.
Qed.

(** X17.  What a constructed analysis always satisfies: the two arrays have
    the length of the file less fourteen lines, and the same length; the
    radius is the mean distance of the samples to the fitted centre; the
    resistances are those of the fitted circle; and the total water is the
    sum of the two compartments. *)
Theorem init_consistent (data : list string) (o : BIAnalysis) :
  init leastsq data = Ok o ->
  length (freq (parsed o)) = (length data - 14)%nat
  /\ length (react (parsed o)) = length (freq (parsed o))
  /\ radius o
     = np_mean (calc_R (freq (parsed o)) (react (parsed o))
                  (fst (fitted_center o)) (snd (fitted_center o)))
  /\ calculate_resistance (fitted_center o) (radius o) = Ok (ri o, re o)
  /\ tbw o = fadd (ecw o) (icw o).
Proof.
  intros H. apply init_Ok in H.
  destruct H as (p & R & c & m & i & e & ew & iw & tw & Hp & Hr & Hm & Hres & Hw & ->).
  cbn [parsed radius fitted_center ri re ecw icw tbw].
  apply init_parse_Ok in Hp. destruct Hp as (_ & _ & _ & Hf).
  unfold get_freq_react_data in Hf.
  apply get_freq_react_loop_count in Hf. cbn [length] in Hf.
  rewrite extract_impedance_data_length in Hf.
  rewrite calculate_radius_unfold in Hr.
  destruct (leastsq _ _) as [[c' ier] |]; [| discriminate].
  inversion Hr; subst.
  unfold calculate_body_water in Hw.
  destruct (py_div (Fin 0.188) (bmi p)); cbn [bind] in Hw; [| discriminate].
  destruct (py_div (Fin 5.8758) (bmi p)); cbn [bind] in Hw; [| discriminate].
  inversion Hw; subst.
  repeat split; try lia; try reflexivity. exact Hres.
Qed.

End Init.

(** ** When [__init__] succeeds *)

Lemma calculate_body_water_total (h w b res_e res_i : float64) :
  b <> Fin 0 -> exists r, calculate_body_water h w b res_e res_i = Ok r.
Proof.
  intros Hb. unfold calculate_body_water.
  destruct (py_div_Ok (Fin 0.188) b Hb) as [q1 H1].
  destruct (py_div_Ok (Fin 5.8758) b Hb) as [q2 H2].
  rewrite H1, H2. cbn [bind]. now eexists.
Qed.

Lemma init_parse_lengths (data : list string) (p : Parsed) :
  init_parse data = Ok p -> length (react p) = length (freq p).
Proof.
  intros H. apply init_parse_Ok in H. destruct H as (_ & _ & _ & Hf).
  unfold get_freq_react_data in Hf. symmetry.
  eapply get_freq_react_loop_length; [exact Hf | reflexivity].
Qed.

Section Success.

Variable leastsq : (center -> list float64) -> center -> result (center * Z).

(** In the embedding, where no value leaves the range of a float, these
    conditions are also enough. *)
Lemma init_succeeds (data : list string) (p : Parsed) :
  init_parse data = Ok p ->
  (exists r, leastsq (f_2 (freq p) (react p)) (np_mean (freq p), Fin 0) = Ok r) ->
  ~ In (Fin 0) (freq p) ->
  bmi p <> Fin 0 ->
  exists o, init leastsq data = Ok o.
Proof.
  intros Hp [[c ier] Hsol] Hfreq Hbmi. unfold init. rewrite Hp. cbn [bind].
  rewrite calculate_radius_unfold, Hsol. cbn [bind].
  destruct (calculate_ffm_total (height (subject p)) (weight (subject p))
              (age (subject p)) (freq p) (react p) (init_parse_lengths data p Hp))
    as [_ Hm].
  destruct (Hm Hfreq) as [m Hm']. rewrite Hm'. cbn [bind].
  unfold calculate_resistance. cbn [bind].
  match goal with
  | |- context [calculate_body_water ?h ?w ?b ?e ?i] =>
      destruct (calculate_body_water_total h w b e i Hbmi) as [[[ew iw] tw] Hw];
      rewrite Hw
  end.
  cbn [bind]. now eexists.
Qed.


End Success.

(** ** Too few samples *)

Lemma zip_with_length {A B C : Type} (f : A -> B -> C) (u : list A) (v : list B) :
  length (zip_with f u v) = Nat.min (length u) (length v).
Proof.
  revert v. induction u as [| a u IH]; intros [| b v]; cbn; try reflexivity.
  now rewrite IH.
Qed.

Lemma f_2_length (fs xs : list float64) (c : center) :
  length xs = length fs -> length (f_2 fs xs c) = length fs.
Proof.
  intros Hlen. unfold f_2, calc_R.
  rewrite !length_map, zip_with_length, !length_map. lia.
Qed.

Lemma init_parse_count (data : list string) (p : Parsed) :
  init_parse data = Ok p -> length (freq p) = (length data - 14)%nat.
Proof.
  intros H. apply init_parse_Ok in H. destruct H as (_ & _ & _ & Hf).
  unfold get_freq_react_data in Hf.
  apply get_freq_react_loop_count in Hf. cbn [length] in Hf.
  rewrite extract_impedance_data_length in Hf. lia.
Qed.

Lemma checking_solver_checks (func : center -> list float64) (x0 : center) :
  (length (func x0) < 2)%nat -> checking_solver func x0 = Raise TypeError.
Proof.
  intros H. unfold checking_solver.
  destruct (Nat.ltb_spec (length (func x0)) 2); [reflexivity | lia].
Qed.

Section FewSamples.

Variable leastsq : (center -> list float64) -> center -> result (center * Z).

(** The check that [leastsq] makes before it iterates: it calls the residual
    function at the starting point and raises [TypeError] when there are
    fewer residuals than unknowns, of which [calculate_radius] has two. *)
Hypothesis leastsq_checks :
  forall func x0, (length (func x0) < 2)%nat -> leastsq func x0 = Raise TypeError.

(** X19.  The code never counts the samples.  With a solver that makes the
    check of [leastsq], a file that parses but has fewer than two sample
    rows (fifteen lines or fewer) yields no analysis: [__init__] ends in the
    [TypeError] of the solver. *)
Theorem init_too_few_samples (data : list string) (p : Parsed) :
  init_parse data = Ok p ->
  (length data <= 15)%nat ->
  init leastsq data = Raise TypeError.
Proof.
  intros Hp Hlen. unfold init. rewrite Hp. cbn [bind].
  rewrite calculate_radius_unfold, leastsq_checks; [reflexivity |].
  rewrite f_2_length by (apply (init_parse_lengths data p Hp)).
  rewrite (init_parse_count data p Hp). lia.
Qed.

End FewSamples.

(** ** Three files, end to end *)

Lemma init_parse_three_rows :
  init_parse (mfu_file "Wzrost 170" three_rows)
  = Ok (mkParsed subject_170_70
          (Fin (Spec.BMI (decimal 170 0) (decimal 70 0)))
          [["1"; "50"; "-30"]; ["2"; "60"; "-20"]; ["3"; "70"; "-30"]]%string
          [Fin (decimal 50 0); Fin (decimal 60 0); Fin (decimal 70 0)]
          [Fin (decimal (-30) 0); Fin (decimal (-20) 0); Fin (decimal (-30) 0)]).
Proof.
  unfold init_parse.
  replace (parse_subject (mfu_file "Wzrost 170" three_rows))
    with (Ok subject_170_70) by reflexivity.
  cbn [bind subject_170_70 height weight]. rewrite bmi_170_70. reflexivity.
Qed.

Lemma bmi_170_70_nonzero : Fin (Spec.BMI (decimal 170 0) (decimal 70 0)) <> Fin 0.
Proof.
  intros H. inversion H as [Hb].
  pose proof (BMI_pos (decimal 170 0) (decimal 70 0)) as Hpos.
  rewrite !decimal_0 in *. lra.
Qed.

Lemma init_three_rows :
  exists o, init exhausted_solver (mfu_file "Wzrost 170" three_rows) = Ok o.
Proof.
  eapply init_succeeds; [exact init_parse_three_rows | | |]; cbn [freq react bmi].
  - eexists. reflexivity.
  - intros [H | [H | [H | []]]]; inversion H as [Hd];
      rewrite decimal_0 in Hd; lra.
  - exact bmi_170_70_nonzero.
Qed.

Lemma init_consistent_witness :
  exists o,
    init exhausted_solver (mfu_file "Wzrost 170" three_rows) = Ok o
    /\ length (freq (parsed o)) = 3%nat
    /\ length (react (parsed o)) = length (freq (parsed o))
    /\ radius o
       = np_mean (calc_R (freq (parsed o)) (react (parsed o))
                    (fst (fitted_center o)) (snd (fitted_center o)))
    /\ calculate_resistance (fitted_center o) (radius o) = Ok (ri o, re o)
    /\ tbw o = fadd (ecw o) (icw o).
Proof.
  destruct init_three_rows as [o Ho]. exists o. split; [exact Ho |].
  exact (init_consistent exhausted_solver (mfu_file "Wzrost 170" three_rows) o Ho).
Defined.


Lemma init_parse_one_row :
  init_parse (mfu_file "Wzrost 170" ["1,50,-30"%string])
  = Ok (mkParsed subject_170_70
          (Fin (Spec.BMI (decimal 170 0) (decimal 70 0)))
          [["1"; "50"; "-30"]]%string
          [Fin (decimal 50 0)] [Fin (decimal (-30) 0)]).
Proof.
  unfold init_parse.
  replace (parse_subject (mfu_file "Wzrost 170" ["1,50,-30"%string]))
    with (Ok subject_170_70) by reflexivity.
  cbn [bind subject_170_70 height weight]. rewrite bmi_170_70. reflexivity.
Qed.

Lemma init_too_few_samples_witness :
  length (mfu_file "Wzrost 170" ["1,50,-30"%string]) = 15%nat
  /\ init checking_solver (mfu_file "Wzrost 170" ["1,50,-30"%string])
     = Raise TypeError.
Proof.
  split; [reflexivity |].
  refine (init_too_few_samples checking_solver checking_solver_checks
            (mfu_file "Wzrost 170" ["1,50,-30"%string]) _ init_parse_one_row _).
  simpl. lia.
Defined.

(** ** What [main.py] can do *)

Lemma no_second_field (sep : ascii) (s : string) :
  nth_error (split sep s) 1 = None <-> occurrences sep s = 0%nat.
Proof.
  rewrite nth_error_None, split_length. lia.
Qed.

(** X21.  [main.py] has three outcomes and no other.  It analyses the file
    exactly when the path names a file and the text between its first and
    its second dot (or the end) is [mfu]; it ends in [IndexError] exactly
    when the path names a file and has no dot; otherwise, and always when
    the path names no file, it prints the error message. *)
Theorem main_outcomes (isfile : string -> bool) (path : string) :
  (main isfile path = Ok (Analyse path)
   <-> isfile path = true /\ field_of "." path 1 = Some "mfu"%string)
  /\ (main isfile path = Raise IndexError
      <-> isfile path = true /\ occurrences "." path = 0%nat)
  /\ (main isfile path = Ok (PrintError error_message)
      <-> isfile path = false
          \/ exists ext, field_of "." path 1 = Some ext /\ ext <> "mfu"%string)
  /\ (main isfile path = Ok (Analyse path)
      \/ main isfile path = Raise IndexError
      \/ main isfile path = Ok (PrintError error_message)).
Proof.
  unfold main, field_of, getitem.
  pose proof (no_second_field "." path) as Hdot.
  destruct (isfile path); cbn [negb].
  2: { split; [| split; [| split]].
       - split; [discriminate | intros [H _]; discriminate].
       - split; [discriminate | intros [H _]; discriminate].
       - split; [now left | reflexivity].
       - now right; right. }
  destruct (nth_error (split "." path) 1) as [ext |] eqn:Hext; cbn [bind].
  - assert (Hocc : occurrences "." path <> 0%nat).
    { intros H. apply Hdot in H. discriminate. }
    destruct (String.eqb_spec ext "mfu") as [-> | Hne]; cbn [negb].
    + split; [| split; [| split]].
      * split; [now split | reflexivity].
      * split; [discriminate | intros [_ H]; contradiction].
      * split; [discriminate |].
        intros [H | (ext & H & Hne)]; [discriminate |].
        inversion H; subst. contradiction.
      * now left.
    + split; [| split; [| split]].
      * split; [discriminate |]. intros [_ H]. inversion H. contradiction.
      * split; [discriminate | intros [_ H]; contradiction].
      * split; [| reflexivity]. intros _. right. now exists ext.
      * now right; right.
  - assert (Hocc : occurrences "." path = 0%nat) by (apply Hdot; reflexivity).
    split; [| split; [| split]].
    + split; [discriminate | intros [_ H]; discriminate].
    + split; [now split | reflexivity].
    + split; [discriminate |].
      intros [H | (ext & H & _)]; discriminate.
    + now right; left.
Qed.

(** ** The summary *)

(** X22.  The dictionary of [get_summary] has eleven keys, all different,
    and [print_summary] prints, line by line, what the dictionary holds
    under [height], [weight], [age], [sex], [bmi], [re], [ri], [ffm], [ecw],
    [icw] and [tbw]: the two resistances in the other order than the
    dictionary lists them, the age as a number with three decimals. *)
Theorem get_summary_printed (o : BIAnalysis) :
  NoDup (map fst (get_summary o))
  /\ length (get_summary o) = 11%nat
  /\ Forall2 (fun line key =>
                option_map cell_of (lookup key (get_summary o)) = Some (snd line))
       (print_summary o)
       ["height"; "weight"; "age"; "sex"; "bmi"; "re"; "ri"; "ffm"; "ecw";
        "icw"; "tbw"]%string.
Proof.
  split; [| split].
  - cbn [get_summary map fst].
    repeat (constructor; [cbn [In]; intuition discriminate |]). constructor.
  - reflexivity.
  - unfold print_summary. repeat constructor.
Qed.
